(** * CellUniverse: the command-line driver of the cell annealer

    A shallow embedding of [src/main.py] (the windowed simulated-annealing
    driver) and of [get_image_file_paths] from
    [src/global_optimization/CellUniverse.py].

    Python objects that are mutated in place (the configuration
    dictionaries) live in an explicit object store; everything the driver
    hands to its collaborators (image synthesis, the annealer, the lineage
    writer) is recorded as an event in a trace, in program order.  A Python
    exception is a [Raise] result; the store and the trace built up to the
    raise are kept, as in Python. *)

From Stdlib Require Import ZArith QArith String List Lia ZifyBool.
From stdpp Require Import base gmap strings list.

Local Open Scope string_scope.
Local Open Scope list_scope.

(** ** Exceptions and results *)

Inductive exn : Type :=
| ValueError (msg : string)
| KeyError (key : string)
| TypeError
| ZeroDivisionError
| AttributeError
| IndexError
| UnboundLocalError (name : string)
| PlainException (msg : string).

(** A call returns, raises, or is still running when the fuel of a loop
    without a static bound ([itertools.count], [while]) is used up. *)
Inductive result (A : Type) : Type :=
| Ok (a : A)
| Raise (e : exn)
| OutOfFuel.
Arguments Ok {A} a.
Arguments Raise {A} e.
Arguments OutOfFuel {A}.

(** ** Configuration values

    [jsonc.load] yields a tree of dictionaries, numbers, strings, booleans
    and nulls.  Dictionaries keep insertion order, as Python's do. *)

#[warnings="-register-all"]
Inductive json : Type :=
| JNum (q : Q)
| JStr (s : string)
| JBool (b : bool)
| JNull
| JObj (items : list (string * json)).

Abbreviation dict := (list (string * json)).

Fixpoint dict_get (k : string) (d : dict) : option json :=
  match d with
  | [] => None
  | (k', v) :: rest => if String.eqb k k' then Some v else dict_get k rest
  end.

(** [d[k] = v]: an existing key keeps its position, a new one goes last. *)
Fixpoint dict_set (k : string) (v : json) (d : dict) : dict :=
  match d with
  | [] => [(k, v)]
  | (k', v') :: rest =>
      if String.eqb k k' then (k', v) :: rest else (k', v') :: dict_set k v rest
  end.

Definition dict_has (k : string) (d : dict) : bool :=
  match dict_get k d with Some _ => true | None => false end.

(** [d[k]] as an expression. *)
Definition subscript (d : dict) (k : string) : result json :=
  match dict_get k d with
  | Some v => Ok v
  | None => Raise (KeyError k)
  end.

(** The numeric value of a Python number ([bool] is a number in Python). *)
Definition num_of (v : json) : option Q :=
  match v with
  | JNum q => Some q
  | JBool b => Some (if b then 1%Q else 0%Q)
  | _ => None
  end.

(** [a / b], Python's true division. *)
Definition truediv (a b : json) : result json :=
  match num_of a, num_of b with
  | Some x, Some y =>
      if Qeq_bool y 0 then Raise ZeroDivisionError else Ok (JNum (x / y))
  | _, _ => Raise TypeError
  end.

(** ** The object store and the trace *)

Definition loc := nat.

(** What the driver asks of its collaborators, in program order. *)
Inductive event : Type :=
| EvSeed (seed : Z)
| EvOpenLineage
| EvLineageLine (line : string)
| EvLoadImages
| EvCreateLineage (sa_config : loc)
| EvShiftCells (pad : Q)
| EvCopyForward
| EvPadImage (frame : Z) (pad : Q)
| EvSynthImage (frame : Z)
| EvDistMap (frame : Z) (divisor : Q)
| EvAutoTemp (window_start window_end : Z)
| EvObjective (use_dist : bool)
| EvGlobalOptimize (window_start window_end : Z)
| EvSaveLineage (frame : Z)
| EvSaveOutput (frame : Z)
| EvLocalOptimize (config : loc).

Record world : Type := World {
  objs : gmap loc dict;
  trace : list event
}.

Definition M (A : Type) : Type := world -> world * result A.

Definition ret {A} (a : A) : M A := fun w => (w, Ok a).
Definition raise {A} (e : exn) : M A := fun w => (w, Raise e).
Definition bind {A B} (c : M A) (k : A -> M B) : M B :=
  fun w => match c w with
           | (w', Ok a) => k a w'
           | (w', Raise e) => (w', Raise e)
           | (w', OutOfFuel) => (w', OutOfFuel)
           end.
Definition lift {A} (r : result A) : M A := fun w => (w, r).
Definition emit (e : event) : M unit :=
  fun w => (World (objs w) (trace w ++ [e]), Ok tt).

Notation "x <~ c ;; k" := (bind c (fun x => k))
  (at level 100, c at next level, right associativity).
Notation "c ;;; k" := (bind c (fun _ => k))
  (at level 100, right associativity).

Definition when (b : bool) (c : M unit) : M unit := if b then c else ret tt.

(** Reading the dictionary object at [l]. *)
Definition deref (l : loc) : M dict :=
  fun w => match objs w !! l with
           | Some d => (w, Ok d)
           | None => (w, Raise (PlainException "dangling reference"))
           end.

(** [copy.deepcopy(obj)]: a new object with equal contents; the tree has no
    sharing, so the copy shares nothing with the original. *)
Definition deepcopy (l : loc) : M loc :=
  fun w => match objs w !! l with
           | Some d =>
               let l' := fresh (dom (objs w)) in
               (World (<[l' := d]> (objs w)) (trace w), Ok l')
           | None => (w, Raise (PlainException "dangling reference"))
           end.

(** [obj[sub][k] = v] on the object at [l]. *)
Definition setitem2 (l : loc) (sub k : string) (v : json) : M unit :=
  fun w => match objs w !! l with
           | Some d =>
               match dict_get sub d with
               | Some (JObj inner) =>
                   (World (<[l := dict_set sub (JObj (dict_set k v inner)) d]> (objs w))
                          (trace w), Ok tt)
               | Some _ => (w, Raise TypeError)
               | None => (w, Raise (KeyError sub))
               end
           | None => (w, Raise (PlainException "dangling reference"))
           end.

(** ** Deriving the annealing configuration (main, lines 238-256) *)

Definition keys_to_modify : list string :=
  [ "modification.x.mu"; "modification.y.mu"; "modification.width.mu";
    "modification.length.mu"; "modification.rotation.mu";
    "modification.x.sigma"; "modification.y.sigma"; "modification.width.sigma";
    "modification.length.sigma"; "modification.rotation.sigma" ].

Definition key_in (k : string) (ks : list string) : bool :=
  existsb (String.eqb k) ks.

(** The body of [for key, value in sa_config["perturbation"].items()]. *)
Definition scale_item (sa : loc) (key : string) (value : json) : M unit :=
  when (key_in key keys_to_modify)
    (d <~ deref sa ;;
     ipc <~ lift (subscript d "iteration_per_cell") ;;
     v <~ lift (truediv value ipc) ;;
     setitem2 sa "perturbation" key v).

Fixpoint scale_items (sa : loc) (items : dict) : M unit :=
  match items with
  | [] => ret tt
  | (key, value) :: rest => scale_item sa key value ;;; scale_items sa rest
  end.

Definition scale_perturbation (sa : loc) : M unit :=
  d <~ deref sa ;;
  p <~ lift (subscript d "perturbation") ;;
  match p with
  | JObj items => scale_items sa items
  | _ => raise AttributeError
  end.

Definition derive_sa_config (config : loc) : M loc :=
  sa <~ deepcopy config ;;
  scale_perturbation sa ;;;
  ret sa.

(** ** Finding the input frames *)

(** [range(lo, hi)] *)
Definition py_range (lo hi : Z) : list Z :=
  map (fun i => (lo + Z.of_nat i)%Z) (seq 0 (Z.to_nat (hi - lo))).

Definition not_found : exn := ValueError "Input file not found".

(** The loop [for i in count(args.frame_first)] of [get_inputfiles]; a file
    is named by its frame index, [is_file i] tells whether
    [Path(args.input % i)] exists and is a file. *)
Fixpoint inputfiles_loop (fuel : nat) (is_file : Z -> bool)
    (frame_first frame_last i : Z) (inputfiles : list Z) : result (list Z) :=
  match fuel with
  | O => OutOfFuel
  | S fuel' =>
      if is_file i then
        if (i =? frame_last)%Z then Ok (inputfiles ++ [i])
        else inputfiles_loop fuel' is_file frame_first frame_last (i + 1)
               (inputfiles ++ [i])
      else if (frame_last <? 0)%Z && negb (frame_first =? i)%Z then Ok inputfiles
      else Raise not_found
  end.

Definition get_inputfiles (fuel : nat) (is_file : Z -> bool)
    (frame_first frame_last : Z) : result (list Z) :=
  if (frame_first >? frame_last)%Z && (frame_last >=? 0)%Z then
    Raise (ValueError "Invalid interval: frame_first must be less than frame_last")
  else if (frame_first <? 0)%Z then
    Raise (ValueError "Invalid interval: frame_first must be greater or equal to 0")
  else inputfiles_loop fuel is_file frame_first frame_last frame_first [].

(** [get_image_file_paths] of CellUniverse.py: [is_slice i z] tells whether
    the file of frame [i], slice [z] exists.  [None] is the [ValueError] of
    the inner loop. *)
Fixpoint slice_stack (is_slice : Z -> Z -> bool) (i : Z) (zs : list Z)
    : option (list (Z * Z)) :=
  match zs with
  | [] => Some []
  | z :: rest =>
      if is_slice i z then
        match slice_stack is_slice i rest with
        | Some st => Some ((i, z) :: st)
        | None => None
        end
      else None
  end.

Fixpoint image_paths_loop (fuel : nat) (is_slice : Z -> Z -> bool)
    (z_slices first_frame last_frame i : Z) (image_path_stack : list (list (Z * Z)))
    : result (list (list (Z * Z))) :=
  match fuel with
  | O => OutOfFuel
  | S fuel' =>
      if (last_frame =? -1)%Z || (i <=? last_frame)%Z then
        match slice_stack is_slice i (py_range 0 z_slices) with
        | Some input_file_stack =>
            image_paths_loop fuel' is_slice z_slices first_frame last_frame (i + 1)
              (image_path_stack ++ [input_file_stack])
        | None =>
            if negb (last_frame =? -1)%Z
               && negb (Z.of_nat (length image_path_stack)
                        =? last_frame - first_frame + 1)%Z
            then Raise not_found
            else Ok image_path_stack
        end
      else Ok image_path_stack
  end.

Definition get_image_file_paths (fuel : nat) (is_slice : Z -> Z -> bool)
    (z_slices first_frame last_frame : Z) : result (list (list (Z * Z))) :=
  image_paths_loop fuel is_slice z_slices first_frame last_frame first_frame [].

(** ** Command-line arguments and the outside world *)

Record args : Type := Args {
  frame_first : Z;
  frame_last : Z;
  dist : bool;
  global_optimization : bool;
  binary : bool;
  graySynthetic : bool;
  phaseContrast : bool;
  auto_temp : Z;
  start_temp : option Q;
  end_temp : option Q;
  auto_meth : string;
  continue_from : Z;
  seed : option Z
}.

(** What [main] reads from outside: the clock, the parsed configuration
    file, the input directory, and the answers of two collaborators whose
    code is not part of the driver. *)
Record env : Type := Env {
  start_ms : Z;                          (* int(time.time() * 1000) *)
  parsed_config : json;                  (* jsonc.load(fp) *)
  checkconfig : dict -> result unit;     (* Bacilli.checkconfig *)
  is_file : Z -> bool;                   (* Path(args.input % i) is a file *)
  auto_temp_schedule_frame : Z -> Z -> bool
}.

(** ** Small pieces of the Python library *)

Definition lower_ascii (c : Ascii.ascii) : Ascii.ascii :=
  let n := Ascii.nat_of_ascii c in
  if (65 <=? n)%nat && (n <=? 90)%nat then Ascii.ascii_of_nat (n + 32) else c.

Fixpoint lower (s : string) : string :=
  match s with
  | EmptyString => EmptyString
  | String c rest => String (lower_ascii c) (lower rest)
  end.

(** [sep.join(parts)] *)
Fixpoint join (sep : string) (parts : list string) : string :=
  match parts with
  | [] => ""
  | [p] => p
  | p :: rest => p ++ sep ++ join sep rest
  end.

(** An [int] read from the configuration ([JNum] does not tell [3] from
    [3.0]; a value with a fractional part is not an [int]). *)
Definition int_of (v : json) : result Z :=
  match v with
  | JNum q => if (Z.pos (Qden q) =? 1)%Z then Ok (Qnum q) else Raise TypeError
  | JBool b => Ok (if b then 1 else 0)%Z
  | _ => Raise TypeError
  end.

Definition number_of (v : json) : result Q :=
  match num_of v with
  | Some q => Ok q
  | None => Raise TypeError
  end.

Definition str_of (v : json) : result string :=
  match v with
  | JStr s => Ok s
  | _ => Raise AttributeError
  end.

Definition obj_of (v : json) : result dict :=
  match v with
  | JObj d => Ok d
  | _ => Raise TypeError
  end.

Definition alloc (d : dict) : M loc :=
  fun w => let l := fresh (dom (objs w)) in
           (World (<[l := d]> (objs w)) (trace w), Ok l).

(** ** load_config *)

Definition load_config (e : env) : M loc :=
  match parsed_config e with
  | JObj config =>
      if negb (dict_has "global.cellType" config) then
        raise (ValueError "Invalid config: missing global.cellType")
      else if negb (dict_has "global.pixelsPerMicron" config) then
        raise (ValueError "Invalid config: missing global.pixelsPerMicron")
      else if negb (dict_has "global.framesPerSecond" config) then
        raise (ValueError "Invalid config: missing global.framesPerSecond")
      else
        ct <~ lift (subscript config "global.cellType") ;;
        name <~ lift (str_of ct) ;;
        if String.eqb (lower name) "bacilli" then
          lift (checkconfig e config) ;;;
          alloc config
        else raise (ValueError "Invalid config: unsupported cell type")
  | _ => raise (ValueError "Invalid config: must be a dictionary")
  end.

(** ** The window loop (main, lines 283-323) *)

Fixpoint for_each {A} (xs : list A) (body : A -> M unit) : M unit :=
  match xs with
  | [] => ret tt
  | x :: rest => body x ;;; for_each rest body
  end.

(** Reading the local variable [pad], bound only when the simulation
    section has a [padding] key. *)
Definition read_pad (pad : option Q) : M Q :=
  match pad with
  | Some p => ret p
  | None => raise (UnboundLocalError "pad")
  end.

(** The divisor of the distance map (lines 299-300):
    [sa_config[f'{celltype}.distanceCostDivisor'] * sa_config['global.pixelsPerMicron']]. *)
Definition distmap_divisor (cfg : dict) : result Q :=
  match subscript cfg "global.cellType" with
  | Ok ct =>
      match str_of ct with
      | Ok name =>
          match subscript cfg (lower name ++ ".distanceCostDivisor") with
          | Ok dv =>
              match subscript cfg "global.pixelsPerMicron" with
              | Ok pv =>
                  match num_of dv, num_of pv with
                  | Some x, Some y => Ok (x * y)%Q
                  | _, _ => Raise TypeError
                  end
              | Raise e => Raise e
              | OutOfFuel => OutOfFuel
              end
          | Raise e => Raise e
          | OutOfFuel => OutOfFuel
          end
      | Raise e => Raise e
      | OutOfFuel => OutOfFuel
      end
  | Raise e => Raise e
  | OutOfFuel => OutOfFuel
  end.

(** [realimage < .5], on the flattened image. *)
Definition background_mask (realimage : list Q) : list bool :=
  map (fun v => negb (Qle_bool (1 # 2) v)) realimage.

(** The distance map itself (lines 298-301); scipy's
    [distance_transform_edt] is taken as a function on masks. *)
Definition distance_map (distance_transform_edt : list bool -> list Q)
    (realimage : list Q) (divisor : Q) : list Q :=
  map (fun x => (x / divisor + 1)%Q)
      (distance_transform_edt (background_mask realimage)).

(** The configuration values the objective call reads (lines 316-319). *)
Definition objective_weights (use_dist : bool) (cfg : dict) : result unit :=
  match subscript cfg "overlap.cost" with
  | Ok _ =>
      if use_dist then Ok tt
      else match subscript cfg "cell.importance" with
           | Ok _ => Ok tt
           | Raise e => Raise e
           | OutOfFuel => OutOfFuel
           end
  | Raise e => Raise e
  | OutOfFuel => OutOfFuel
  end.

(** [save_output] (lines 148-170): reads the residual range, then writes
    the images of the frame. *)
Definition save_output (frame : Z) (cfg : dict) : M unit :=
  _ <~ lift (subscript cfg "residual.vmin") ;;
  _ <~ lift (subscript cfg "residual.vmax") ;;
  emit (EvSaveOutput frame).

Definition window_body (a : args) (e : env) (cfg : dict)
    (window n_images sim_start : Z) (pad : option Q) (window_start : Z) : M unit :=
  let window_end := (window_start + window)%Z in
  when (window_end <=? n_images)%Z
    (when (window_start >=? sim_start)%Z
       (when (window_end >? 1)%Z (emit EvCopyForward)) ;;;
     p <~ read_pad pad ;;
     when (negb (Qle_bool p 0)) (emit (EvPadImage (window_end - 1) p)) ;;;
     emit (EvSynthImage (window_end - 1)) ;;;
     when (dist a)
       (dv <~ lift (distmap_divisor cfg) ;;
        emit (EvDistMap (window_end - 1) dv)) ;;;
     when ((auto_temp a =? 1)%Z && (window_end =? 1)%Z) (emit (EvAutoTemp 0 1)) ;;;
     when (String.eqb (auto_meth a) "frame"
           && auto_temp_schedule_frame e window_end 3)
       (emit (EvAutoTemp window_start window_end))) ;;;
  when (window_start >=? sim_start)%Z
    (lift (objective_weights (dist a) cfg) ;;;
     emit (EvObjective (dist a)) ;;;
     emit (EvGlobalOptimize window_start window_end)) ;;;
  when (window_start >=? 0)%Z
    (emit (EvSaveLineage window_start) ;;;
     save_output window_start cfg).

Definition window_loop (a : args) (e : env) (cfg : dict)
    (window n_images sim_start : Z) (pad : option Q) : M unit :=
  for_each (py_range (1 - window) n_images)
    (window_body a e cfg window n_images sim_start pad).

(** ** main

    Creating the output directories, the debug file and the worker pool
    leave no mark on the lineage log or on the configuration; they are not
    part of the trace. *)

Definition temp_conflict : exn :=
  PlainException "when auto_temp is set to 1(default value), starting temperature or ending temperature should not be set manually".

Definition lineage_header (celltype : string) : string :=
  let header := ["file"; "name"] in
  let header :=
    if String.eqb celltype "bacilli"
    then header ++ ["x"; "y"; "width"; "length"; "rotation"; "split_alpha"; "opacity"]
    else header in
  join "," header.

Definition choose_seed (a : args) (e : env) : Z :=
  match seed a with
  | Some s => s
  | None => (start_ms e mod 2 ^ 32)%Z
  end.

(** Lines 258-324: loading the images, building the lineage, binding [pad]
    and sliding the window, on the derived configuration. *)
Definition global_run (a : args) (sa_config : loc) (e : env) (imagefiles : list Z)
    : M Z :=
  emit EvLoadImages ;;;
  emit (EvCreateLineage sa_config) ;;;
  d <~ deref sa_config ;;
  wv <~ lift (subscript d "global_optimizer.window_size") ;;
  let sim_start := (continue_from a - frame_first a)%Z in
  (if length imagefiles is O then raise IndexError else ret tt) ;;;
  sim <~ lift (subscript d "simulation") ;;
  simd <~ lift (obj_of sim) ;;
  pad <~ (if dict_has "padding" simd then
            pv <~ lift (subscript simd "padding") ;;
            p <~ lift (number_of pv) ;;
            emit (EvShiftCells p) ;;;
            ret (Some p)
          else ret None) ;;
  _ <~ lift (subscript d "iteration_per_cell") ;;
  window <~ lift (int_of wv) ;;
  window_loop a e d window (Z.of_nat (length imagefiles)) sim_start pad ;;;
  ret 0%Z.

(** Lines 237-324: the global-optimization path. *)
Definition global_path (a : args) (config : loc) (e : env) (imagefiles : list Z)
    : M Z :=
  sa_config <~ derive_sa_config config ;;
  global_run a sa_config e imagefiles.

(** Line 175. *)
Definition temps_given (a : args) : bool :=
  match start_temp a, end_temp a with
  | None, None => false
  | _, _ => true
  end.

(** Lines 197-224: everything between the temperature check and the
    opening of the lineage file. *)
Definition startup (fuel : nat) (a : args) (e : env) : M (loc * string * list Z) :=
  config <~ load_config e ;;
  d0 <~ deref config ;;
  _ <~ lift (subscript d0 "simulation") ;;
  (if graySynthetic a then
     setitem2 config "simulation" "image.type" (JStr "graySynthetic")
   else if phaseContrast a then
     setitem2 config "simulation" "image.type" (JStr "phaseContrastImage")
   else if binary a then
     setitem2 config "simulation" "image.type" (JStr "binary")
   else raise (ValueError "Invalid Command: Synthetic image type must be specified")) ;;;
  emit (EvSeed (choose_seed a e)) ;;;
  d <~ deref config ;;
  ct <~ lift (subscript d "global.cellType") ;;
  name <~ lift (str_of ct) ;;
  imagefiles <~ lift (get_inputfiles fuel (is_file e) (frame_first a) (frame_last a)) ;;
  ret (config, lower name, imagefiles).

(** Lines 237-327: what runs once the header is written. *)
Definition optimize (a : args) (e : env) (config : loc) (imagefiles : list Z) : M Z :=
  if global_optimization a then global_path a config e imagefiles
  else emit (EvLocalOptimize config) ;;; ret 0%Z.

Definition main (fuel : nat) (a : args) (e : env) : M Z :=
  if temps_given a && (auto_temp a =? 1)%Z then raise temp_conflict
  else
    s <~ startup fuel a e ;;
    let '(config, celltype, imagefiles) := s in
    emit EvOpenLineage ;;;
    emit (EvLineageLine (lineage_header celltype)) ;;;
    optimize a e config imagefiles.

(** ** parse_args: the defaults of --workers and --jobs (lines 89-98)

    [cpu_count] is [multiprocessing.cpu_count()]; an empty [cluster] is the
    local cluster. *)
Definition resolve_jobs (workers jobs : Z) (cluster : string) (cpu_count : Z)
    : result (Z * Z) :=
  let workers := if (workers =? -1)%Z then cpu_count else workers in
  if (jobs =? -1)%Z then
    if negb (String.eqb cluster "") then
      Raise (ValueError "-j/--jobs is required for non-local clusters")
    else Ok (workers, workers)
  else Ok (workers, jobs).

(** * Vocabulary of the properties *)

(** ** The derived configuration *)

(** What one round of the scaling loop does to the perturbation section. *)
Definition scale_step (ipc : Q) (p : dict) (kv : string * json) : dict :=
  if key_in (fst kv) keys_to_modify then
    match num_of (snd kv) with
    | Some q => dict_set (fst kv) (JNum (q / ipc)) p
    | None => p
    end
  else p.

(** [sa] in [w'] is the configuration at [config] in [w] with the ten keys
    of its perturbation section divided by [ipc]; nothing that existed in
    [w] has changed. *)
Definition derived_from (w : world) (config : loc) (d p : dict) (ipc : Q)
    (w' : world) (sa : loc) : Prop :=
  sa <> config /\
  trace w' = trace w /\
  objs w' !! config = Some d /\
  (forall l, is_Some (objs w !! l) -> objs w' !! l = objs w !! l) /\
  exists d' p',
    objs w' !! sa = Some d' /\
    dict_get "perturbation" d' = Some (JObj p') /\
    (forall k, k <> "perturbation" -> dict_get k d' = dict_get k d) /\
    (forall k v q, In k keys_to_modify -> dict_get k p = Some v ->
                   num_of v = Some q -> dict_get k p' = Some (JNum (q / ipc))) /\
    (forall k, ~ In k keys_to_modify -> dict_get k p' = dict_get k p).

(** A configuration in the shape of the shipped ones. *)
Definition sample_perturbation : dict :=
  [ ("prob.x", JNum 1);
    ("modification.x.mu", JNum 0);
    ("modification.x.sigma", JNum 6);
    ("modification.rotation.sigma", JNum (1 # 5));
    ("prob.split", JNum (1 # 10)) ].

Definition sample_config (ipc : Q) (simulation : dict) : dict :=
  [ ("global.cellType", JStr "Bacilli");
    ("global.pixelsPerMicron", JNum 15);
    ("global.framesPerSecond", JNum 1);
    ("bacilli.distanceCostDivisor", JNum 4);
    ("global_optimizer.window_size", JNum 3);
    ("iteration_per_cell", JNum ipc);
    ("overlap.cost", JNum 1);
    ("cell.importance", JNum 1);
    ("residual.vmin", JNum (-1));
    ("residual.vmax", JNum 1);
    ("simulation", JObj simulation);
    ("perturbation", JObj sample_perturbation) ].

Definition sample_world (ipc : Q) (simulation : dict) : world :=
  World {[ 0%nat := sample_config ipc simulation ]} [].

(** ** Steps that only add to the trace *)

(** [c] returns, leaves the store alone and appends [evs] to the trace. *)
Definition emits (c : M unit) (evs : list event) : Prop :=
  forall w, c w = (World (objs w) (trace w ++ evs), Ok tt).

(** The configuration holds what the loop reads from it. *)
Definition config_ready (a : args) (cfg : dict) (dv : Q) : Prop :=
  (dist a = true -> distmap_divisor cfg = Ok dv) /\
  objective_weights (dist a) cfg = Ok tt /\
  dict_has "residual.vmin" cfg = true /\
  dict_has "residual.vmax" cfg = true.

(** The events of one window iteration when [pad] is bound. *)
Definition estimate_events (a : args) (e : env) (dv : Q) (window sim_start : Z)
    (p : Q) (window_start : Z) : list event :=
  let window_end := (window_start + window)%Z in
  (if (window_start >=? sim_start)%Z
   then (if (window_end >? 1)%Z then [EvCopyForward] else []) else []) ++
  (if negb (Qle_bool p 0) then [EvPadImage (window_end - 1) p] else []) ++
  [EvSynthImage (window_end - 1)] ++
  (if dist a then [EvDistMap (window_end - 1) dv] else []) ++
  (if (auto_temp a =? 1)%Z && (window_end =? 1)%Z then [EvAutoTemp 0 1] else []) ++
  (if String.eqb (auto_meth a) "frame" && auto_temp_schedule_frame e window_end 3
   then [EvAutoTemp window_start window_end] else []).

Definition body_events (a : args) (e : env) (dv : Q) (window n_images sim_start : Z)
    (p : Q) (window_start : Z) : list event :=
  let window_end := (window_start + window)%Z in
  (if (window_end <=? n_images)%Z
   then estimate_events a e dv window sim_start p window_start else []) ++
  (if (window_start >=? sim_start)%Z
   then [EvObjective (dist a); EvGlobalOptimize window_start window_end] else []) ++
  (if (window_start >=? 0)%Z
   then [EvSaveLineage window_start; EvSaveOutput window_start] else []).

(** ** What the trace says about frames *)

Definition saved_frames (t : list event) : list Z :=
  flat_map (fun ev => match ev with EvSaveLineage f => [f] | _ => [] end) t.

Definition output_frames (t : list event) : list Z :=
  flat_map (fun ev => match ev with EvSaveOutput f => [f] | _ => [] end) t.

Definition synth_frames (t : list event) : list Z :=
  flat_map (fun ev => match ev with EvSynthImage f => [f] | _ => [] end) t.

Definition dist_maps (t : list event) : list (Z * Q) :=
  flat_map (fun ev => match ev with EvDistMap f dv => [(f, dv)] | _ => [] end) t.

Definition optimize_calls (t : list event) : list (Z * Z) :=
  flat_map (fun ev => match ev with EvGlobalOptimize s e => [(s, e)] | _ => [] end) t.

(** ** A sample run: five frames, window of three *)

Definition sample_args : args :=
  {| frame_first := 0; frame_last := -1; dist := false;
     global_optimization := true; binary := true; graySynthetic := false;
     phaseContrast := false; auto_temp := 1; start_temp := None;
     end_temp := None; auto_meth := "none"; continue_from := 0;
     seed := Some 7%Z |}.

Definition sample_env (ipc : Q) (simulation : dict) : env :=
  {| start_ms := 1700000000000;
     parsed_config := JObj (sample_config ipc simulation);
     checkconfig := fun _ => Ok tt;
     is_file := fun i => (0 <=? i)%Z && (i <? 5)%Z;
     auto_temp_schedule_frame := fun _ _ => false |}.

Definition empty_world : world := World ∅ [].

(** ** Dispatch of the annealing jobs *)

(** C2 as stated: every job gets a window end clipped to the frames, and
    no job is dispatched for a window that ends past them. *)
Definition window_end_clipped (window n_images : Z) (t : list event) : Prop :=
  forall ws we, In (ws, we) (optimize_calls t) -> we = Z.min (ws + window) n_images.

Definition dispatched_within_frames (n_images : Z) (t : list event) : Prop :=
  forall ws we, In (ws, we) (optimize_calls t) -> (we <= n_images)%Z.

(** ** Distance maps *)

(** A stand-in for the distance transform on one image row: the number of
    consecutive background pixels up to and including each pixel. *)
Fixpoint run_lengths (run : Q) (mask : list bool) : list Q :=
  match mask with
  | [] => []
  | b :: rest =>
      let r := if b then (run + 1)%Q else 0%Q in r :: run_lengths r rest
  end.

Definition run_length_row (mask : list bool) : list Q := run_lengths 0 mask.

Definition sample_row : list Q := [0; 0; 1; 1; 0]%Q.

Definition dist_args : args :=
  {| frame_first := 0; frame_last := -1; dist := true;
     global_optimization := true; binary := true; graySynthetic := false;
     phaseContrast := false; auto_temp := 1; start_temp := None;
     end_temp := None; auto_meth := "none"; continue_from := 0;
     seed := Some 7%Z |}.

(** ** Manual temperatures under automatic scheduling *)

Definition manual_temp_args : args :=
  {| frame_first := 0; frame_last := -1; dist := false;
     global_optimization := true; binary := true; graySynthetic := false;
     phaseContrast := false; auto_temp := 1; start_temp := Some 10%Q;
     end_temp := None; auto_meth := "none"; continue_from := 0;
     seed := Some 7%Z |}.

(** ** The lineage log *)

(** Whatever [c] does, it only appends events that satisfy [P]. *)
Definition appends_only (P : event -> Prop) {A} (c : M A) : Prop :=
  forall w, exists evs, trace (fst (c w)) = trace w ++ evs /\ Forall P evs.



(** Events other than the rendering of a first estimate. *)
Definition no_estimate (ev : event) : Prop :=
  match ev with
  | EvSynthImage _ | EvDistMap _ _ => False
  | _ => True
  end.


(** ** Missing input frames *)

(** The paths of frame [i]. *)
Definition frame_paths (z_slices : Z) (i : Z) : list (Z * Z) :=
  map (fun z => (i, z)) (py_range 0 z_slices).

(** ** More on the input frames *)

(** All the slices of frame [i] are there. *)
Definition frame_complete (is_slice : Z -> Z -> bool) (z_slices i : Z) : bool :=
  forallb (is_slice i) (py_range 0 z_slices).

(** ** Start-up *)

(** The synthetic image type the flags select (main, lines 200-207). *)
Definition image_type (a : args) : option string :=
  if graySynthetic a then Some "graySynthetic"
  else if phaseContrast a then Some "phaseContrastImage"
  else if binary a then Some "binary"
  else None.

(** The configuration file is one [load_config] accepts. *)
Definition acceptable_config (e : env) (config : dict) (name : string) : Prop :=
  parsed_config e = JObj config /\
  dict_get "global.cellType" config = Some (JStr name) /\
  dict_has "global.pixelsPerMicron" config = true /\
  dict_has "global.framesPerSecond" config = true /\
  lower name = "bacilli" /\
  checkconfig e config = Ok tt.


(** A configuration for a cell type the program does not know. *)
Definition unsupported_env : env :=
  {| start_ms := 0;
     parsed_config := JObj [("global.cellType", JStr "cocci");
                            ("global.pixelsPerMicron", JNum 15);
                            ("global.framesPerSecond", JNum 1)];
     checkconfig := fun _ => Ok tt;
     is_file := fun _ => false;
     auto_temp_schedule_frame := fun _ _ => false |}.

(** ** Sample runs for the paths through main *)

Definition no_type_args : args :=
  {| frame_first := 0; frame_last := -1; dist := false;
     global_optimization := true; binary := false; graySynthetic := false;
     phaseContrast := false; auto_temp := 1; start_temp := None;
     end_temp := None; auto_meth := "none"; continue_from := 0;
     seed := Some 7%Z |}.



(** ** More of what the trace says *)

Definition auto_temps (t : list event) : list (Z * Z) :=
  flat_map (fun ev => match ev with EvAutoTemp s e => [(s, e)] | _ => [] end) t.

Definition padded_frames (t : list event) : list (Z * Q) :=
  flat_map (fun ev => match ev with EvPadImage f p => [(f, p)] | _ => [] end) t.

Definition copy_forwards (t : list event) : list unit :=
  flat_map (fun ev => match ev with EvCopyForward => [tt] | _ => [] end) t.

(** The sample configuration without the residual range. *)
Definition no_residual_config : dict :=
  [ ("global.cellType", JStr "Bacilli");
    ("global.pixelsPerMicron", JNum 15);
    ("global.framesPerSecond", JNum 1);
    ("global_optimizer.window_size", JNum 3);
    ("iteration_per_cell", JNum 10);
    ("overlap.cost", JNum 1);
    ("cell.importance", JNum 1);
    ("simulation", JObj [("padding", JNum 0)]);
    ("perturbation", JObj sample_perturbation) ].

(** The events of a window iteration up to the saving of the frame. *)
Definition before_save_events (a : args) (e : env) (dv : Q)
    (window n_images sim_start : Z) (p : Q) (window_start : Z) : list event :=
  let window_end := (window_start + window)%Z in
  (if (window_end <=? n_images)%Z
   then estimate_events a e dv window sim_start p window_start else []) ++
  (if (window_start >=? sim_start)%Z
   then [EvObjective (dist a); EvGlobalOptimize window_start window_end] else []).

(** ** Configurations that the scaling loop does not like *)

(** A perturbation section without any of the ten keys. *)
Definition plain_perturbation : dict :=
  [ ("prob.x", JNum 1); ("prob.split", JNum (1 # 10)) ].

Definition plain_config : dict :=
  [ ("global.cellType", JStr "bacilli");
    ("iteration_per_cell", JNum 0);
    ("perturbation", JObj plain_perturbation) ].

(** A configuration without iteration_per_cell. *)
Definition no_budget_config : dict :=
  [ ("global.cellType", JStr "bacilli");
    ("perturbation", JObj sample_perturbation) ].

(** * Properties *)

(** ** Dictionaries *)

Lemma dict_get_set_eq k v d : dict_get k (dict_set k v d) = Some v.
Proof.
  induction d as [|[k' v'] d IH]; simpl.
  - now rewrite String.eqb_refl.
  - destruct (String.eqb k k') eqn:E; simpl; rewrite E; auto.
Qed.

Lemma dict_get_set_ne k k' v d :
  k <> k' -> dict_get k' (dict_set k v d) = dict_get k' d.
Proof.
  intros Hne. induction d as [|[k0 v0] d IH]; simpl.
  - destruct (String.eqb k' k) eqn:E; auto.
    apply String.eqb_eq in E. congruence.
  - destruct (String.eqb k k0) eqn:E; simpl.
    + apply String.eqb_eq in E. subst k0.
      destruct (String.eqb k' k) eqn:E'; auto.
      apply String.eqb_eq in E'. congruence.
    + now rewrite IH.
Qed.

Lemma dict_get_In k v d : dict_get k d = Some v -> In (k, v) d.
Proof.
  induction d as [|[k' v'] d IH]; simpl; [discriminate|].
  destruct (String.eqb k k') eqn:E.
  - apply String.eqb_eq in E. intros [= ->]. subst. now left.
  - auto.
Qed.

Lemma key_in_In k ks : key_in k ks = true <-> In k ks.
Proof.
  unfold key_in. rewrite existsb_exists. split.
  - intros (x & Hx & E). apply String.eqb_eq in E. now subst.
  - intros H. exists k. split; auto. apply String.eqb_refl.
Qed.

(** ** The derived configuration *)

Lemma bind_ok {A B} (c : M A) (k : A -> M B) w w1 a :
  c w = (w1, Ok a) -> bind c k w = k a w1.
Proof. unfold bind. now intros ->. Qed.

Lemma bind_raise {A B} (c : M A) (k : A -> M B) w w1 e :
  c w = (w1, Raise e) -> bind c k w = (w1, Raise e).
Proof. unfold bind. now intros ->. Qed.

Lemma scale_item_skip sa key value w :
  key_in key keys_to_modify = false -> scale_item sa key value w = (w, Ok tt).
Proof. unfold scale_item, when. now intros ->. Qed.

Lemma scale_item_hit sa key value w d p ipcv ipc q :
  key_in key keys_to_modify = true ->
  objs w !! sa = Some d ->
  dict_get "perturbation" d = Some (JObj p) ->
  dict_get "iteration_per_cell" d = Some ipcv ->
  num_of ipcv = Some ipc -> Qeq_bool ipc 0 = false ->
  num_of value = Some q ->
  scale_item sa key value w =
    (World (<[sa := dict_set "perturbation"
                      (JObj (dict_set key (JNum (q / ipc)) p)) d]> (objs w))
           (trace w), Ok tt).
Proof.
  intros Hkey Hobj Hpert Hcell Hipc Hnz Hq.
  unfold scale_item, when. rewrite Hkey.
  unfold bind, deref, lift, subscript, truediv, setitem2.
  cbv beta. rewrite Hobj. cbv beta match. rewrite Hcell. cbv beta match.
  rewrite Hq, Hipc, Hnz. cbv beta match. now rewrite Hobj, Hpert.
Qed.

Lemma scale_items_run sa ipcv ipc :
  num_of ipcv = Some ipc -> Qeq_bool ipc 0 = false ->
  forall items w d p,
    objs w !! sa = Some d ->
    dict_get "perturbation" d = Some (JObj p) ->
    dict_get "iteration_per_cell" d = Some ipcv ->
    (forall k v, In (k, v) items -> key_in k keys_to_modify = true ->
                 exists q, num_of v = Some q) ->
    exists w' d',
      scale_items sa items w = (w', Ok tt) /\
      trace w' = trace w /\
      (forall l, l <> sa -> objs w' !! l = objs w !! l) /\
      objs w' !! sa = Some d' /\
      dict_get "perturbation" d' = Some (JObj (fold_left (scale_step ipc) items p)) /\
      (forall k, k <> "perturbation" -> dict_get k d' = dict_get k d).
Proof.
  intros Hipc Hnz. induction items as [|[key value] items IH];
    intros w d p Hobj Hpert Hcell Hnum.
  - exists w, d. simpl. repeat split; auto.
  - simpl scale_items.
    destruct (key_in key keys_to_modify) eqn:Hkey.
    + destruct (Hnum key value (or_introl eq_refl) Hkey) as [q Hq].
      set (p1 := dict_set key (JNum (q / ipc)) p).
      set (d1 := dict_set "perturbation" (JObj p1) d).
      set (w1 := World (<[sa := d1]> (objs w)) (trace w)).
      rewrite (bind_ok _ _ w w1 tt)
        by (eapply scale_item_hit; eassumption).
      destruct (IH w1 d1 p1) as (w' & d' & Hrun & Htr & Hoth & Hsa & Hp' & Hk').
      * simpl. apply lookup_insert_eq.
      * apply dict_get_set_eq.
      * unfold d1. rewrite dict_get_set_ne; [assumption|discriminate].
      * intros k v Hin. apply Hnum. now right.
      * exists w', d'. split; [exact Hrun|]. split; [exact Htr|].
        split; [|split; [exact Hsa|split]].
        -- intros l Hl. rewrite Hoth by assumption. simpl.
           now rewrite lookup_insert_ne.
        -- rewrite Hp'. simpl fold_left.
           replace (scale_step ipc p (key, value)) with p1; [reflexivity|].
           unfold scale_step. cbn [fst snd]. now rewrite Hkey, Hq.
        -- intros k Hk. rewrite Hk' by assumption. unfold d1.
           apply dict_get_set_ne. congruence.
    + rewrite (bind_ok _ _ w w tt) by (now apply scale_item_skip).
      destruct (IH w d p Hobj Hpert Hcell) as (w' & d' & H).
      * intros k v Hin. apply Hnum. now right.
      * exists w', d'. simpl fold_left.
        replace (scale_step ipc p (key, value)) with p; [exact H|].
        unfold scale_step. cbn [fst snd]. now rewrite Hkey.
Qed.

Lemma scale_fold_other ipc k items : forall p,
  key_in k keys_to_modify = false \/ ~ In k (map fst items) ->
  dict_get k (fold_left (scale_step ipc) items p) = dict_get k p.
Proof.
  induction items as [|[k0 v0] items IH]; intros p Hk; simpl; [reflexivity|].
  rewrite IH.
  - unfold scale_step. cbn [fst snd].
    destruct (key_in k0 keys_to_modify) eqn:E0; [|reflexivity].
    destruct (num_of v0); [|reflexivity].
    apply dict_get_set_ne. intros ->.
    destruct Hk as [Hk|Hk]; [congruence|]. apply Hk. now left.
  - destruct Hk as [Hk|Hk]; [now left|]. right. intros H. apply Hk. now right.
Qed.

Lemma scale_fold_hit ipc k v q items : forall p,
  List.NoDup (map fst items) -> In (k, v) items ->
  key_in k keys_to_modify = true -> num_of v = Some q ->
  dict_get k (fold_left (scale_step ipc) items p) = Some (JNum (q / ipc)).
Proof.
  induction items as [|[k0 v0] items IH]; intros p Hnd Hin Hkey Hq;
    [destruct Hin|].
  simpl in Hnd. inversion Hnd as [|? ? Hnotin Hnd']; subst.
  destruct Hin as [[= -> ->]|Hin].
  - simpl. rewrite scale_fold_other by (now right).
    unfold scale_step. cbn [fst snd]. rewrite Hkey, Hq. apply dict_get_set_eq.
  - simpl. now apply IH.
Qed.

(** C3: the annealing configuration is a fresh object in which the ten
    perturbation keys are the configured values divided by
    iteration_per_cell, every other key is as configured, and the
    configuration object it was copied from is left as it was. *)
Theorem derive_sa_config_scales (w : world) (config : loc) (d p : dict)
    (ipcv : json) (ipc : Q) :
  objs w !! config = Some d ->
  dict_get "perturbation" d = Some (JObj p) ->
  List.NoDup (map fst p) ->
  dict_get "iteration_per_cell" d = Some ipcv ->
  num_of ipcv = Some ipc ->
  Qeq_bool ipc 0 = false ->
  (forall k v, In (k, v) p -> key_in k keys_to_modify = true ->
               exists q, num_of v = Some q) ->
  exists w' sa,
    derive_sa_config config w = (w', Ok sa) /\
    derived_from w config d p ipc w' sa.
Proof.
  intros Hobj Hpert Hnd Hcell Hipc Hnz Hnum.
  set (sa := fresh (dom (objs w))).
  set (w0 := World (<[sa := d]> (objs w)) (trace w)).
  assert (Hfresh : objs w !! sa = None).
  { apply not_elem_of_dom. apply is_fresh. }
  assert (Hne : sa <> config) by congruence.
  assert (Hcopy : deepcopy config w = (w0, Ok sa)).
  { unfold deepcopy. now rewrite Hobj. }
  assert (Hsa0 : objs w0 !! sa = Some d) by apply lookup_insert_eq.
  destruct (scale_items_run sa ipcv ipc Hipc Hnz p w0 d p Hsa0 Hpert Hcell Hnum)
    as (w' & d' & Hrun & Htr & Hoth & Hsa & Hp' & Hk').
  exists w', sa. split.
  - unfold derive_sa_config. rewrite (bind_ok _ _ _ _ _ Hcopy).
    assert (Hscale : scale_perturbation sa w0 = (w', Ok tt)).
    { unfold scale_perturbation, bind, deref, lift, subscript. cbv beta.
      rewrite Hsa0. cbv beta match. rewrite Hpert. exact Hrun. }
    now rewrite (bind_ok _ _ _ _ _ Hscale).
  - split; [exact Hne|]. split; [exact Htr|]. split; [|split].
    + rewrite Hoth by congruence. simpl. now rewrite lookup_insert_ne.
    + intros l [x Hl]. assert (l <> sa) by congruence.
      rewrite Hoth by assumption. simpl. now rewrite lookup_insert_ne.
    + exists d', (fold_left (scale_step ipc) p p).
      split; [exact Hsa|]. split; [exact Hp'|]. split; [exact Hk'|]. split.
      * intros k v q Hk Hv Hq. eapply scale_fold_hit; eauto.
        -- now apply dict_get_In.
        -- now apply key_in_In.
      * intros k Hk. apply scale_fold_other. left.
        destruct (key_in k keys_to_modify) eqn:E; [|reflexivity].
        apply key_in_In in E. contradiction.
Qed.

Lemma derive_sa_config_scales_witness :
  exists w' sa,
    derive_sa_config 0%nat (sample_world 3 []) = (w', Ok sa) /\
    derived_from (sample_world 3 []) 0%nat (sample_config 3 [])
      sample_perturbation 3 w' sa.
Proof.
  apply (derive_sa_config_scales (sample_world 3 []) 0%nat (sample_config 3 [])
           sample_perturbation (JNum 3) 3).
  - reflexivity.
  - reflexivity.
  - simpl. repeat constructor; simpl; intuition discriminate.
  - reflexivity.
  - reflexivity.
  - reflexivity.
  - intros k v Hin _. simpl in Hin.
    repeat (destruct Hin as [[= <- <-]|Hin]; [eexists; reflexivity|]).
    destruct Hin.
Defined.

(** ** Ranges *)

Lemma In_py_range x lo hi : In x (py_range lo hi) <-> (lo <= x < hi)%Z.
Proof.
  unfold py_range. rewrite in_map_iff. split.
  - intros (i & <- & Hi). apply in_seq in Hi. lia.
  - intros H. exists (Z.to_nat (x - lo)). split; [lia|]. apply in_seq. lia.
Qed.

Lemma py_range_split lo mid hi :
  (lo <= mid <= hi)%Z -> py_range lo hi = py_range lo mid ++ py_range mid hi.
Proof.
  intros H. unfold py_range.
  replace (Z.to_nat (hi - lo)) with (Z.to_nat (mid - lo) + Z.to_nat (hi - mid))%nat
    by lia.
  rewrite seq_app, map_app. f_equal. simpl.
  generalize (Z.to_nat (hi - mid)) as n. intros n.
  replace (Z.to_nat (mid - lo)) with (Z.to_nat (mid - lo) + 0)%nat at 1 by lia.
  generalize 0%nat as s. induction n as [|n IH]; intros s; simpl; [reflexivity|].
  f_equal; [lia|]. rewrite <- (IH (S s)). now rewrite Nat.add_succ_r.
Qed.

Lemma py_range_shift c lo hi :
  map (fun x => (x + c)%Z) (py_range lo hi) = py_range (lo + c) (hi + c).
Proof.
  unfold py_range. rewrite map_map.
  replace (hi + c - (lo + c))%Z with (hi - lo)%Z by lia.
  apply map_ext. intros i. lia.
Qed.

Lemma py_range_cons lo hi :
  (lo < hi)%Z -> py_range lo hi = lo :: py_range (lo + 1) hi.
Proof.
  intros H. rewrite (py_range_split lo (lo + 1) hi) by lia.
  unfold py_range at 1. replace (lo + 1 - lo)%Z with 1%Z by lia. simpl.
  now rewrite Z.add_0_r.
Qed.

Lemma filter_keep_all {A} (f : A -> bool) l :
  (forall x, In x l -> f x = true) -> List.filter f l = l.
Proof.
  induction l as [|x l IH]; intros H; simpl; [reflexivity|].
  rewrite (H x) by now left. f_equal. apply IH. intros y Hy. apply H. now right.
Qed.

Lemma filter_drop_all {A} (f : A -> bool) l :
  (forall x, In x l -> f x = false) -> List.filter f l = [].
Proof.
  induction l as [|x l IH]; intros H; simpl; [reflexivity|].
  rewrite (H x) by now left. apply IH. intros y Hy. apply H. now right.
Qed.

Lemma filter_range_from lo hi k :
  (lo <= k <= hi)%Z ->
  List.filter (fun x => (x >=? k)%Z) (py_range lo hi) = py_range k hi.
Proof.
  intros H. rewrite (py_range_split lo k hi) by lia. rewrite List.filter_app.
  rewrite filter_drop_all, filter_keep_all; [reflexivity| |];
    intros x Hx; apply In_py_range in Hx; lia.
Qed.

Lemma filter_range_upto lo hi k :
  (lo <= k <= hi)%Z ->
  List.filter (fun x => (x <? k)%Z) (py_range lo hi) = py_range lo k.
Proof.
  intros H. rewrite (py_range_split lo k hi) by lia. rewrite List.filter_app.
  rewrite filter_keep_all, filter_drop_all; [apply app_nil_r| |];
    intros x Hx; apply In_py_range in Hx; lia.
Qed.

Lemma flat_map_select {A B} (f : A -> bool) (g : A -> B) l :
  flat_map (fun x => if f x then [g x] else []) l = map g (List.filter f l).
Proof.
  induction l as [|x l IH]; simpl; [reflexivity|].
  destruct (f x); simpl; now rewrite IH.
Qed.

Lemma flat_map_nest {A B C} (f : A -> list B) (g : B -> list C) l :
  flat_map g (flat_map f l) = flat_map (fun x => flat_map g (f x)) l.
Proof.
  induction l as [|x l IH]; simpl; [reflexivity|].
  now rewrite flat_map_app, IH.
Qed.

(** ** Steps that only add to the trace *)

Lemma emits_ret : emits (ret tt) [].
Proof. intros [o t]. unfold ret. simpl. now rewrite app_nil_r. Qed.

Lemma emits_emit e : emits (emit e) [e].
Proof. intros w. reflexivity. Qed.

Lemma emits_seq c1 c2 l1 l2 :
  emits c1 l1 -> emits c2 l2 -> emits (c1 ;;; c2) (l1 ++ l2).
Proof.
  intros H1 H2 w. unfold bind. rewrite H1, H2. simpl. now rewrite app_assoc.
Qed.

Lemma emits_when (b : bool) c l :
  emits c l -> emits (when b c) (if b then l else []).
Proof. intros H. destruct b; [exact H|apply emits_ret]. Qed.

Lemma emits_lift {A} (r : result A) (x : A) (k : A -> M unit) l :
  r = Ok x -> emits (k x) l -> emits (bind (lift r) k) l.
Proof. intros -> H w. unfold bind, lift. apply H. Qed.

Lemma emits_bind_ret {A} (x : A) (k : A -> M unit) l :
  emits (k x) l -> emits (bind (ret x) k) l.
Proof. intros H w. unfold bind, ret. apply H. Qed.

Lemma emits_for_each {A} (xs : list A) (body : A -> M unit) (f : A -> list event) :
  (forall x, In x xs -> emits (body x) (f x)) ->
  emits (for_each xs body) (flat_map f xs).
Proof.
  induction xs as [|x xs IH]; intros H; simpl.
  - apply emits_ret.
  - apply emits_seq; [apply H; now left|]. apply IH. intros y Hy. apply H. now right.
Qed.

Lemma dict_has_subscript k cfg :
  dict_has k cfg = true -> exists v, subscript cfg k = Ok v.
Proof.
  unfold dict_has, subscript. destruct (dict_get k cfg); [eauto|discriminate].
Qed.

Lemma save_output_emits frame cfg :
  dict_has "residual.vmin" cfg = true -> dict_has "residual.vmax" cfg = true ->
  emits (save_output frame cfg) [EvSaveOutput frame].
Proof.
  intros H1 H2. destruct (dict_has_subscript _ _ H1) as [v1 E1].
  destruct (dict_has_subscript _ _ H2) as [v2 E2]. unfold save_output.
  eapply emits_lift; [exact E1|]. eapply emits_lift; [exact E2|].
  apply emits_emit.
Qed.

Lemma window_body_emits a e cfg dv window n_images sim_start p window_start :
  config_ready a cfg dv ->
  emits (window_body a e cfg window n_images sim_start (Some p) window_start)
        (body_events a e dv window n_images sim_start p window_start).
Proof.
  intros (Hdv & Hobjw & Hmin & Hmax). unfold window_body, body_events.
  apply emits_seq; [|apply emits_seq].
  - apply emits_when. unfold estimate_events.
    apply emits_seq; [apply emits_when, emits_when, emits_emit|].
    unfold read_pad.
    apply emits_bind_ret.
    apply emits_seq; [apply emits_when, emits_emit|].
    apply emits_seq; [apply emits_emit|].
    apply emits_seq; [|apply emits_seq; apply emits_when, emits_emit].
    destruct (dist a) eqn:Hd; [|apply emits_ret]. unfold when.
    eapply emits_lift; [now apply Hdv|]. apply emits_emit.
  - apply emits_when.
    change [EvObjective (dist a); EvGlobalOptimize window_start (window_start + window)]
      with ([] ++ [EvObjective (dist a)]
               ++ [EvGlobalOptimize window_start (window_start + window)]).
    apply emits_seq; [|apply emits_seq; apply emits_emit].
    intros w. unfold lift. rewrite Hobjw. destruct w. simpl. now rewrite app_nil_r.
  - apply emits_when.
    change [EvSaveLineage window_start; EvSaveOutput window_start]
      with ([EvSaveLineage window_start] ++ [EvSaveOutput window_start]).
    apply emits_seq; [apply emits_emit|]. now apply save_output_emits.
Qed.

(** ** The window loop with [pad] bound *)

Lemma window_loop_emits a e cfg dv window n_images sim_start p :
  config_ready a cfg dv ->
  emits (window_loop a e cfg window n_images sim_start (Some p))
        (flat_map (body_events a e dv window n_images sim_start p)
                  (py_range (1 - window) n_images)).
Proof.
  intros H. apply emits_for_each. intros ws _. now apply window_body_emits.
Qed.

Ltac split_ifs :=
  repeat match goal with
         | |- context [if ?b then _ else _] => destruct b
         end.

Lemma saved_frames_body a e dv window n_images sim_start p ws :
  saved_frames (body_events a e dv window n_images sim_start p ws)
  = if (ws >=? 0)%Z then [ws] else [].
Proof.
  unfold saved_frames, body_events, estimate_events.
  rewrite !flat_map_app.
  destruct (ws >=? 0)%Z; split_ifs; reflexivity.
Qed.

Lemma output_frames_body a e dv window n_images sim_start p ws :
  output_frames (body_events a e dv window n_images sim_start p ws)
  = if (ws >=? 0)%Z then [ws] else [].
Proof.
  unfold output_frames, body_events, estimate_events.
  rewrite !flat_map_app.
  destruct (ws >=? 0)%Z; split_ifs; reflexivity.
Qed.

Lemma optimize_calls_body a e dv window n_images sim_start p ws :
  optimize_calls (body_events a e dv window n_images sim_start p ws)
  = if (ws >=? sim_start)%Z then [(ws, (ws + window)%Z)] else [].
Proof.
  unfold optimize_calls, body_events, estimate_events.
  rewrite !flat_map_app.
  destruct (ws >=? sim_start)%Z; split_ifs; reflexivity.
Qed.

Lemma synth_frames_body a e dv window n_images sim_start p ws :
  synth_frames (body_events a e dv window n_images sim_start p ws)
  = if (ws + window <=? n_images)%Z then [(ws + window - 1)%Z] else [].
Proof.
  unfold synth_frames, body_events, estimate_events.
  rewrite !flat_map_app.
  destruct (ws + window <=? n_images)%Z; split_ifs; reflexivity.
Qed.

Lemma dist_maps_body a e dv window n_images sim_start p ws :
  dist_maps (body_events a e dv window n_images sim_start p ws)
  = if (ws + window <=? n_images)%Z && dist a
    then [((ws + window - 1)%Z, dv)] else [].
Proof.
  unfold dist_maps, body_events, estimate_events.
  rewrite !flat_map_app.
  destruct (ws + window <=? n_images)%Z, (dist a); cbn [andb]; split_ifs;
    reflexivity.
Qed.

Lemma saved_frames_loop a e dv window n_images sim_start p xs :
  saved_frames (flat_map (body_events a e dv window n_images sim_start p) xs)
  = List.filter (fun ws => (ws >=? 0)%Z) xs.
Proof.
  unfold saved_frames. rewrite flat_map_nest. fold saved_frames.
  rewrite (flat_map_ext _ _ (saved_frames_body a e dv window n_images sim_start p)).
  rewrite (flat_map_select (fun ws => (ws >=? 0)%Z) (fun ws => ws)).
  apply map_id.
Qed.

Lemma output_frames_loop a e dv window n_images sim_start p xs :
  output_frames (flat_map (body_events a e dv window n_images sim_start p) xs)
  = List.filter (fun ws => (ws >=? 0)%Z) xs.
Proof.
  unfold output_frames. rewrite flat_map_nest. fold output_frames.
  rewrite (flat_map_ext _ _ (output_frames_body a e dv window n_images sim_start p)).
  rewrite (flat_map_select (fun ws => (ws >=? 0)%Z) (fun ws => ws)).
  apply map_id.
Qed.

Lemma optimize_calls_loop a e dv window n_images sim_start p xs :
  optimize_calls (flat_map (body_events a e dv window n_images sim_start p) xs)
  = map (fun ws => (ws, (ws + window)%Z))
        (List.filter (fun ws => (ws >=? sim_start)%Z) xs).
Proof.
  unfold optimize_calls. rewrite flat_map_nest. fold optimize_calls.
  rewrite (flat_map_ext _ _ (optimize_calls_body a e dv window n_images sim_start p)).
  apply flat_map_select.
Qed.

Lemma synth_frames_loop a e dv window n_images sim_start p xs :
  synth_frames (flat_map (body_events a e dv window n_images sim_start p) xs)
  = map (fun ws => (ws + window - 1)%Z)
        (List.filter (fun ws => (ws + window <=? n_images)%Z) xs).
Proof.
  unfold synth_frames. rewrite flat_map_nest. fold synth_frames.
  rewrite (flat_map_ext _ _ (synth_frames_body a e dv window n_images sim_start p)).
  apply flat_map_select.
Qed.

Lemma dist_maps_loop a e dv window n_images sim_start p xs :
  dist a = true ->
  dist_maps (flat_map (body_events a e dv window n_images sim_start p) xs)
  = map (fun ws => ((ws + window - 1)%Z, dv))
        (List.filter (fun ws => (ws + window <=? n_images)%Z) xs).
Proof.
  intros Hd. unfold dist_maps. rewrite flat_map_nest. fold dist_maps.
  rewrite (flat_map_ext _ _ (dist_maps_body a e dv window n_images sim_start p)).
  rewrite Hd.
  rewrite <- (flat_map_select (fun ws => (ws + window <=? n_images)%Z)).
  apply flat_map_ext. intros ws. now rewrite andb_true_r.
Qed.

(** The frames whose first estimate is rendered: all of them, in order. *)
Lemma estimated_frames window n_images :
  (1 <= window)%Z -> (0 <= n_images)%Z ->
  map (fun ws => (ws + window - 1)%Z)
      (List.filter (fun ws => (ws + window <=? n_images)%Z)
                   (py_range (1 - window) n_images))
  = py_range 0 n_images.
Proof.
  intros Hw Hn.
  rewrite (List.filter_ext _ (fun ws => (ws <? n_images - window + 1)%Z))
    by (intros ws; lia).
  rewrite filter_range_upto by lia.
  rewrite (map_ext _ (fun ws => (ws + (window - 1))%Z)) by (intros; lia).
  rewrite py_range_shift. f_equal; lia.
Qed.

(** With [pad] bound and the configuration complete, the loop returns and
    saves the lineage and the images of frames [0 .. n_images - 1], each
    once and in order. *)
Theorem window_loop_saves_every_frame a e cfg dv window n_images sim_start p w :
  config_ready a cfg dv -> (1 <= window)%Z -> (0 <= n_images)%Z ->
  exists evs,
    window_loop a e cfg window n_images sim_start (Some p) w
      = (World (objs w) (trace w ++ evs), Ok tt) /\
    saved_frames evs = py_range 0 n_images /\
    output_frames evs = py_range 0 n_images.
Proof.
  intros Hready Hw Hn. eexists. split.
  - apply (window_loop_emits a e cfg dv window n_images sim_start p Hready w).
  - rewrite saved_frames_loop, output_frames_loop, filter_range_from by lia.
    auto.
Qed.

(** ** The window loop with [pad] unbound *)

Lemma window_body_unbound a e cfg window n_images sim_start w :
  (1 <= n_images)%Z ->
  window_body a e cfg window n_images sim_start None (1 - window) w
  = (w, Raise (UnboundLocalError "pad")).
Proof.
  intros Hn. unfold window_body.
  replace (1 - window + window)%Z with 1%Z by lia.
  replace (1 <=? n_images)%Z with true by lia.
  unfold when at 1. apply bind_raise.
  assert (Hskip : when (1 - window >=? sim_start)%Z
                    (when (1 >? 1)%Z (emit EvCopyForward)) w = (w, Ok tt)).
  { destruct (1 - window >=? sim_start)%Z; reflexivity. }
  rewrite (bind_ok _ _ _ _ _ Hskip). reflexivity.
Qed.

Lemma window_body_reads_pad a e cfg window n_images sim_start ws w :
  (ws + window <= n_images)%Z ->
  snd (window_body a e cfg window n_images sim_start None ws w)
  = Raise (UnboundLocalError "pad").
Proof.
  intros Hend. unfold window_body.
  replace (ws + window <=? n_images)%Z with true by lia.
  unfold when at 1. unfold bind at 1. unfold bind at 1. unfold bind at 1.
  destruct (ws >=? sim_start)%Z, (ws + window >? 1)%Z; reflexivity.
Qed.

Lemma window_loop_unbound a e cfg window n_images sim_start w :
  (1 <= n_images)%Z -> (1 - window < n_images)%Z ->
  window_loop a e cfg window n_images sim_start None w
  = (w, Raise (UnboundLocalError "pad")).
Proof.
  intros Hn Hw. unfold window_loop. rewrite py_range_cons by assumption.
  simpl for_each. apply bind_raise. now apply window_body_unbound.
Qed.

(** C9: [pad] is bound only when the simulation section has a [padding]
    key, and it is read in every window iteration that ends within the
    frames; without the key the first window iteration reads it unbound and
    the run stops there, before any image is rendered or frame saved. *)
Theorem global_run_without_padding (a : args) (sa : loc) (e : env)
    (imagefiles : list Z) (w : world) (d simd : dict) (wv ipcv : json) (window : Z) :
  objs w !! sa = Some d ->
  dict_get "global_optimizer.window_size" d = Some wv ->
  int_of wv = Ok window ->
  dict_get "simulation" d = Some (JObj simd) ->
  dict_has "padding" simd = false ->
  dict_get "iteration_per_cell" d = Some ipcv ->
  (1 <= Z.of_nat (length imagefiles))%Z ->
  (1 - window < Z.of_nat (length imagefiles))%Z ->
  exists evs,
    global_run a sa e imagefiles w
      = (World (objs w) (trace w ++ evs), Raise (UnboundLocalError "pad")) /\
    evs = [EvLoadImages; EvCreateLineage sa] /\
    saved_frames evs = [] /\ output_frames evs = [] /\
    (forall ws w0, (ws + window <= Z.of_nat (length imagefiles))%Z ->
       snd (window_body a e d window (Z.of_nat (length imagefiles))
              (continue_from a - frame_first a) None ws w0)
       = Raise (UnboundLocalError "pad")).
Proof.
  intros Hobj Hwin Hint Hsim Hpad Hipc Hn Hrange.
  eexists. split; [|split; [reflexivity|split; [reflexivity|split;
    [reflexivity|intros ws w0; apply window_body_reads_pad]]]].
  unfold global_run.
  rewrite (bind_ok (emit EvLoadImages) _ _ _ _ eq_refl).
  rewrite (bind_ok (emit (EvCreateLineage sa)) _ _ _ _ eq_refl).
  set (w2 := World _ _).
  assert (Hw2 : w2 = World (objs w) (trace w ++ [EvLoadImages; EvCreateLineage sa])).
  { unfold w2. simpl. now rewrite <- app_assoc. }
  rewrite Hw2. clear w2 Hw2. set (w2 := World _ _).
  assert (Hderef : deref sa w2 = (w2, Ok d)).
  { unfold deref. simpl. now rewrite Hobj. }
  rewrite (bind_ok _ _ _ _ _ Hderef).
  assert (Hwv : lift (subscript d "global_optimizer.window_size") w2 = (w2, Ok wv)).
  { unfold lift, subscript. now rewrite Hwin. }
  rewrite (bind_ok _ _ _ _ _ Hwv).
  assert (Hlen : (if length imagefiles is O then raise IndexError else ret tt) w2
                 = (w2, Ok tt)).
  { destruct imagefiles; [simpl in Hn; lia|reflexivity]. }
  rewrite (bind_ok _ _ _ _ _ Hlen).
  assert (Hs : lift (subscript d "simulation") w2 = (w2, Ok (JObj simd))).
  { unfold lift, subscript. now rewrite Hsim. }
  rewrite (bind_ok _ _ _ _ _ Hs).
  rewrite (bind_ok (lift (obj_of (JObj simd))) _ w2 w2 simd eq_refl).
  rewrite Hpad.
  rewrite (bind_ok (ret None) _ w2 w2 None eq_refl).
  assert (Hi : lift (subscript d "iteration_per_cell") w2 = (w2, Ok ipcv)).
  { unfold lift, subscript. now rewrite Hipc. }
  rewrite (bind_ok _ _ _ _ _ Hi).
  assert (Hwi : lift (int_of wv) w2 = (w2, Ok window)).
  { unfold lift. now rewrite Hint. }
  rewrite (bind_ok _ _ _ _ _ Hwi).
  apply bind_raise. now apply window_loop_unbound.
Qed.

Lemma global_run_without_padding_witness :
  exists evs,
    global_run sample_args 0%nat (sample_env 10 []) [0; 1; 2; 3; 4]%Z
               (sample_world 10 [])
      = (World (objs (sample_world 10 [])) (trace (sample_world 10 []) ++ evs),
         Raise (UnboundLocalError "pad")) /\
    evs = [EvLoadImages; EvCreateLineage 0%nat] /\
    saved_frames evs = [] /\ output_frames evs = [] /\
    (forall ws w0, (ws + 3 <= Z.of_nat (length [0; 1; 2; 3; 4]%Z))%Z ->
       snd (window_body sample_args (sample_env 10 []) (sample_config 10 []) 3
              (Z.of_nat (length [0; 1; 2; 3; 4]%Z))
              (continue_from sample_args - frame_first sample_args) None ws w0)
       = Raise (UnboundLocalError "pad")).
Proof.
  apply (global_run_without_padding sample_args 0%nat (sample_env 10 [])
           [0; 1; 2; 3; 4]%Z (sample_world 10 []) (sample_config 10 []) []
           (JNum 3) (JNum 10) 3%Z).
  - reflexivity.
  - reflexivity.
  - reflexivity.
  - reflexivity.
  - reflexivity.
  - reflexivity.
  - simpl. lia.
  - simpl. lia.
Defined.

(** ** Frames saved by a whole run *)

(** C1: over five frames with a window of three, a run whose configuration
    has a [padding] key saves frames 0..4, each once and in order; the same
    run on a configuration without the key stops in the first window
    iteration on the unbound [pad] and saves no frame at all. *)
Theorem main_saves_frames_only_with_padding :
  let padded := main 10 sample_args (sample_env 10 [("padding", JNum 0)]) empty_world in
  let bare := main 10 sample_args (sample_env 10 []) empty_world in
  (snd padded = Ok 0%Z /\ saved_frames (trace (fst padded)) = [0; 1; 2; 3; 4]%Z) /\
  (snd bare = Raise (UnboundLocalError "pad") /\ saved_frames (trace (fst bare)) = []).
Proof. vm_compute. repeat split. Qed.

(** ** Dispatch of the annealing jobs *)

Lemma window_dispatch_counterexample :
  let t := trace (fst (window_loop sample_args (sample_env 10 [])
                         (sample_config 10 []) 3 5 0 (Some 0%Q) empty_world)) in
  ~ window_end_clipped 3 5 t /\ ~ dispatched_within_frames 5 t.
Proof.
  assert (Hcalls :
    optimize_calls (trace (fst (window_loop sample_args (sample_env 10 [])
                         (sample_config 10 []) 3 5 0 (Some 0%Q) empty_world)))
    = [(0, 3); (1, 4); (2, 5); (3, 6); (4, 7)]%Z) by (vm_compute; reflexivity).
  cbv zeta. unfold window_end_clipped, dispatched_within_frames.
  rewrite Hcalls. split; intros H.
  - specialize (H 3%Z 6%Z). simpl in H. discriminate H. tauto.
  - specialize (H 3%Z 6%Z). simpl in H. assert (6 <= 5)%Z by (apply H; tauto). lia.
Qed.

(** C2, amended: the window end is [window_start + window], unclipped; a
    job is dispatched in every iteration with [window_start >= sim_start],
    trailing windows included; only the first estimate of a frame is
    limited to windows that end within the frames. *)
Theorem window_dispatch a e cfg dv window n_images sim_start p w :
  config_ready a cfg dv ->
  exists evs,
    window_loop a e cfg window n_images sim_start (Some p) w
      = (World (objs w) (trace w ++ evs), Ok tt) /\
    optimize_calls evs
      = map (fun ws => (ws, (ws + window)%Z))
            (List.filter (fun ws => (ws >=? sim_start)%Z)
                         (py_range (1 - window) n_images)) /\
    synth_frames evs
      = map (fun ws => (ws + window - 1)%Z)
            (List.filter (fun ws => (ws + window <=? n_images)%Z)
                         (py_range (1 - window) n_images)).
Proof.
  intros Hready. eexists. split.
  - apply (window_loop_emits a e cfg dv window n_images sim_start p Hready w).
  - now rewrite optimize_calls_loop, synth_frames_loop.
Qed.

Lemma sample_config_ready simulation :
  config_ready sample_args (sample_config 10 simulation) 0.
Proof. repeat split. discriminate. Qed.

Lemma window_dispatch_witness :
  exists evs,
    window_loop sample_args (sample_env 10 []) (sample_config 10 []) 3 5 0
                (Some 0%Q) empty_world
      = (World (objs empty_world) (trace empty_world ++ evs), Ok tt) /\
    optimize_calls evs
      = map (fun ws => (ws, (ws + 3)%Z))
            (List.filter (fun ws => (ws >=? 0)%Z) (py_range (1 - 3) 5)) /\
    synth_frames evs
      = map (fun ws => (ws + 3 - 1)%Z)
            (List.filter (fun ws => (ws + 3 <=? 5)%Z) (py_range (1 - 3) 5)).
Proof.
  apply (window_dispatch sample_args (sample_env 10 []) (sample_config 10 []) 0
           3 5 0 0 empty_world).
  apply sample_config_ready.
Defined.

(** ** Distance maps *)

Lemma distance_map_weights edt realimage divisor :
  (0 < divisor)%Q ->
  (forall mask, Forall (fun x => (0 <= x)%Q) (edt mask)) ->
  Forall (fun y => (1 <= y)%Q) (distance_map edt realimage divisor).
Proof.
  intros Hd Hedt. unfold distance_map.
  induction (Hedt (background_mask realimage)) as [|x l Hx _ IH]; simpl;
    constructor; [|exact IH].
  apply (Qle_trans _ (0 + 1)); [vm_compute; discriminate|].
  apply Qplus_le_compat; [|apply Qle_refl].
  unfold Qdiv. apply Qmult_le_0_compat; [assumption|].
  apply Qinv_le_0_compat. now apply Qlt_le_weak.
Qed.

Lemma run_lengths_nonneg mask : forall run,
  (0 <= run)%Q -> Forall (fun x => (0 <= x)%Q) (run_lengths run mask).
Proof.
  induction mask as [|b mask IH]; intros run Hrun; simpl; constructor.
  - destruct b; [|apply Qle_refl].
    apply (Qle_trans _ (0 + 0)); [apply Qle_refl|].
    apply Qplus_le_compat; [assumption|discriminate].
  - apply IH. destruct b; [|apply Qle_refl].
    apply (Qle_trans _ (0 + 0)); [apply Qle_refl|].
    apply Qplus_le_compat; [assumption|discriminate].
Qed.

Lemma run_length_row_nonneg mask :
  Forall (fun x => (0 <= x)%Q) (run_length_row mask).
Proof. apply run_lengths_nonneg, Qle_refl. Qed.

(** ** Manual temperatures under automatic scheduling *)

(** C10: with auto_temp = 1 and a start or an end temperature given, main
    raises at once: no configuration is loaded, nothing is written. *)
Theorem main_rejects_manual_temps (fuel : nat) (a : args) (e : env) (w : world) :
  auto_temp a = 1%Z ->
  start_temp a <> None \/ end_temp a <> None ->
  main fuel a e w = (w, Raise temp_conflict).
Proof.
  intros Hauto Htemps. unfold main, temps_given. rewrite Hauto.
  destruct (start_temp a), (end_temp a); try reflexivity.
  destruct Htemps as [H|H]; now destruct H.
Qed.

Lemma main_rejects_manual_temps_witness :
  main 10 manual_temp_args (sample_env 10 [("padding", JNum 0)]) empty_world
  = (empty_world, Raise temp_conflict).
Proof.
  apply (main_rejects_manual_temps 10 manual_temp_args
           (sample_env 10 [("padding", JNum 0)]) empty_world).
  - reflexivity.
  - left. discriminate.
Defined.

(** ** No iterations per cell *)

Lemma scale_items_zero sa ipcv ipc :
  num_of ipcv = Some ipc -> Qeq_bool ipc 0 = true ->
  forall items w d,
    objs w !! sa = Some d ->
    dict_get "iteration_per_cell" d = Some ipcv ->
    (forall k v, In (k, v) items -> key_in k keys_to_modify = true ->
                 exists q, num_of v = Some q) ->
    (exists k v, In (k, v) items /\ key_in k keys_to_modify = true) ->
    scale_items sa items w = (w, Raise ZeroDivisionError).
Proof.
  intros Hipc Hz. induction items as [|[key value] items IH];
    intros w d Hobj Hcell Hnum (k & v & Hin & Hk); [destruct Hin|].
  simpl scale_items. destruct (key_in key keys_to_modify) eqn:Hkey.
  - destruct (Hnum key value (or_introl eq_refl) Hkey) as [q Hq].
    apply bind_raise. unfold scale_item, when. rewrite Hkey.
    unfold bind, deref, lift, subscript, truediv. cbv beta.
    rewrite Hobj. cbv beta match. rewrite Hcell. cbv beta match.
    now rewrite Hq, Hipc, Hz.
  - rewrite (bind_ok _ _ w w tt) by (now apply scale_item_skip).
    apply (IH w d Hobj Hcell).
    + intros k' v' Hin'. apply Hnum. now right.
    + destruct Hin as [[= -> ->]|Hin]; [congruence|]. now exists k, v.
Qed.

(** With iteration_per_cell = 0 and any of the ten keys configured, the
    scaling loop divides by zero: no derived configuration is produced. *)
Lemma derive_sa_config_zero_iterations (w : world) (config : loc) (d p : dict)
    (ipcv : json) (ipc : Q) :
  objs w !! config = Some d ->
  dict_get "perturbation" d = Some (JObj p) ->
  dict_get "iteration_per_cell" d = Some ipcv ->
  num_of ipcv = Some ipc ->
  Qeq_bool ipc 0 = true ->
  (forall k v, In (k, v) p -> key_in k keys_to_modify = true ->
               exists q, num_of v = Some q) ->
  (exists k v, In (k, v) p /\ key_in k keys_to_modify = true) ->
  exists w', derive_sa_config config w = (w', Raise ZeroDivisionError)
             /\ trace w' = trace w.
Proof.
  intros Hobj Hpert Hcell Hipc Hz Hnum Hhit.
  set (sa := fresh (dom (objs w))).
  set (w0 := World (<[sa := d]> (objs w)) (trace w)).
  assert (Hcopy : deepcopy config w = (w0, Ok sa)).
  { unfold deepcopy. now rewrite Hobj. }
  assert (Hsa0 : objs w0 !! sa = Some d) by apply lookup_insert_eq.
  exists w0. split; [|reflexivity].
  unfold derive_sa_config. rewrite (bind_ok _ _ _ _ _ Hcopy).
  apply bind_raise.
  unfold scale_perturbation, bind, deref, lift, subscript. cbv beta.
  rewrite Hsa0. cbv beta match. rewrite Hpert.
  now apply (scale_items_zero sa ipcv ipc Hipc Hz p w0 d).
Qed.

(** C4: a run configured with iteration_per_cell = 0 stops with a division
    by zero while the annealing configuration is derived; the header is the
    only thing written, no job is dispatched and no frame is saved. *)
Theorem main_zero_iterations_divides_by_zero :
  let r := main 10 sample_args (sample_env 0 [("padding", JNum 0)]) empty_world in
  snd r = Raise ZeroDivisionError /\
  trace (fst r)
    = [EvSeed 7; EvOpenLineage;
       EvLineageLine "file,name,x,y,width,length,rotation,split_alpha,opacity"] /\
  optimize_calls (trace (fst r)) = [] /\
  saved_frames (trace (fst r)) = [].
Proof. vm_compute. repeat split. Qed.

(** ** The lineage log *)

Lemma appends_nothing P {A} (c : M A) :
  (forall w, trace (fst (c w)) = trace w) -> appends_only P c.
Proof. intros H w. exists []. rewrite H, app_nil_r. auto. Qed.

Lemma appends_ret P {A} (a : A) : appends_only P (ret a).
Proof. now apply appends_nothing. Qed.

Lemma appends_raise P {A} e : appends_only P (@raise A e).
Proof. now apply appends_nothing. Qed.

Lemma appends_lift P {A} (r : result A) : appends_only P (lift r).
Proof. now apply appends_nothing. Qed.

Lemma appends_deref P l : appends_only P (deref l).
Proof.
  apply appends_nothing. intros w. unfold deref. now destruct (objs w !! l).
Qed.

Lemma appends_deepcopy P l : appends_only P (deepcopy l).
Proof.
  apply appends_nothing. intros w. unfold deepcopy. now destruct (objs w !! l).
Qed.

Lemma appends_alloc P d : appends_only P (alloc d).
Proof. now apply appends_nothing. Qed.

Lemma appends_setitem2 P l sub k v : appends_only P (setitem2 l sub k v).
Proof.
  apply appends_nothing. intros w. unfold setitem2.
  destruct (objs w !! l) as [d|]; [|reflexivity].
  destruct (dict_get sub d) as [[]|]; reflexivity.
Qed.

Lemma appends_emit (P : event -> Prop) ev : P ev -> appends_only P (emit ev).
Proof. intros H w. exists [ev]. split; [reflexivity|]. now constructor. Qed.

Lemma appends_bind P {A B} (c : M A) (k : A -> M B) :
  appends_only P c -> (forall a, appends_only P (k a)) -> appends_only P (bind c k).
Proof.
  intros Hc Hk w. unfold bind. destruct (Hc w) as (evs & Ht & Hall).
  destruct (c w) as [w1 [a| |]]; simpl in Ht.
  - destruct (Hk a w1) as (evs' & Ht' & Hall'). exists (evs ++ evs'). split.
    + now rewrite Ht', Ht, app_assoc.
    + apply Forall_app. auto.
  - now exists evs.
  - now exists evs.
Qed.

Lemma appends_when P (b : bool) c : appends_only P c -> appends_only P (when b c).
Proof. intros H. destruct b; [exact H|apply appends_ret]. Qed.

Lemma appends_for_each P {A} (xs : list A) body :
  (forall x, appends_only P (body x)) -> appends_only P (for_each xs body).
Proof.
  intros H. induction xs as [|x xs IH]; simpl.
  - apply appends_ret.
  - apply appends_bind; auto.
Qed.

Ltac appends_step :=
  first
    [ apply appends_ret | apply appends_raise | apply appends_lift
    | apply appends_deref | apply appends_deepcopy | apply appends_alloc
    | apply appends_setitem2
    | apply appends_when
    | apply appends_for_each; intros
    | apply appends_bind; [|intros]
    | apply appends_emit
    | match goal with
      | |- appends_only _ (match ?x with _ => _ end) => destruct x
      end ].





Lemma bind_inv {A B} (c : M A) (k : A -> M B) w w' (b : B) :
  bind c k w = (w', Ok b) ->
  exists w1 a, c w = (w1, Ok a) /\ k a w1 = (w', Ok b).
Proof.
  unfold bind. destruct (c w) as [w1 [a| |]]; intros H; try discriminate.
  now exists w1, a.
Qed.

Lemma lift_inv {A} (r : result A) w w' (x : A) :
  lift r w = (w', Ok x) -> w' = w /\ r = Ok x.
Proof. unfold lift. now intros [= -> ->]. Qed.


Lemma subscript_inv d k v : subscript d k = Ok v -> dict_get k d = Some v.
Proof. unfold subscript. destruct (dict_get k d); now intros [= ->]. Qed.

Lemma str_of_inv v s : str_of v = Ok s -> v = JStr s.
Proof. destruct v; simpl; intros [= ->]. reflexivity. Qed.





(** ** Missing input frames *)

Lemma inputfiles_loop_advance is_file first last :
  forall (k fuel : nat) (i : Z) (acc : list Z),
    (forall j, (i <= j < i + Z.of_nat k)%Z -> is_file j = true /\ j <> last) ->
    inputfiles_loop (k + fuel) is_file first last i acc
    = inputfiles_loop fuel is_file first last (i + Z.of_nat k)
        (acc ++ py_range i (i + Z.of_nat k)).
Proof.
  induction k as [|k IH]; intros fuel i acc H.
  - simpl. rewrite Z.add_0_r. unfold py_range. rewrite Z.sub_diag. simpl.
    now rewrite app_nil_r.
  - cbn [Nat.add inputfiles_loop].
    destruct (H i) as [Hfile Hlast]; [lia|].
    rewrite Hfile. replace (i =? last)%Z with false by lia.
    rewrite IH by (intros j Hj; apply H; lia).
    rewrite <- app_assoc. cbn [app].
    rewrite (py_range_cons i (i + Z.of_nat (S k))) by lia.
    now replace (i + 1 + Z.of_nat k)%Z with (i + Z.of_nat (S k))%Z by lia.
Qed.

Lemma slice_stack_all is_slice i zs :
  (forall z, In z zs -> is_slice i z = true) ->
  slice_stack is_slice i zs = Some (map (fun z => (i, z)) zs).
Proof.
  induction zs as [|z zs IH]; intros H; simpl; [reflexivity|].
  rewrite (H z) by now left. rewrite IH; [reflexivity|].
  intros z' Hz'. apply H. now right.
Qed.

Lemma slice_stack_missing is_slice i zs :
  (exists z, In z zs /\ is_slice i z = false) -> slice_stack is_slice i zs = None.
Proof.
  induction zs as [|z zs IH]; intros (z' & Hin & Hz'); [destruct Hin|]. simpl.
  destruct (is_slice i z) eqn:E; [|reflexivity].
  rewrite IH; [reflexivity|]. destruct Hin as [->|Hin]; [congruence|eauto].
Qed.

Lemma image_paths_loop_advance is_slice z_slices first last :
  forall (k fuel : nat) (i : Z) (stack : list (list (Z * Z))),
    (forall j, (i <= j < i + Z.of_nat k)%Z ->
               (forall z, (0 <= z < z_slices)%Z -> is_slice j z = true)
               /\ (last = -1 \/ j <= last)%Z) ->
    image_paths_loop (k + fuel) is_slice z_slices first last i stack
    = image_paths_loop fuel is_slice z_slices first last (i + Z.of_nat k)
        (stack ++ map (frame_paths z_slices) (py_range i (i + Z.of_nat k))).
Proof.
  induction k as [|k IH]; intros fuel i stack H.
  - simpl. rewrite Z.add_0_r. unfold py_range at 1. rewrite Z.sub_diag. simpl.
    now rewrite app_nil_r.
  - cbn [Nat.add image_paths_loop].
    destruct (H i) as [Hslices Hlast]; [lia|].
    replace ((last =? -1)%Z || (i <=? last)%Z) with true
      by (symmetry; apply orb_true_iff; lia).
    rewrite slice_stack_all
      by (intros z Hz; apply Hslices; now apply In_py_range in Hz).
    fold (frame_paths z_slices i).
    rewrite IH by (intros j Hj; apply H; lia).
    rewrite <- app_assoc. cbn [app].
    rewrite (py_range_cons i (i + Z.of_nat (S k))) by lia.
    cbn [map].
    now replace (i + 1 + Z.of_nat k)%Z with (i + Z.of_nat (S k))%Z by lia.
Qed.

Lemma py_range_length lo hi : length (py_range lo hi) = Z.to_nat (hi - lo).
Proof. unfold py_range. now rewrite length_map, length_seq. Qed.

(** C5 as stated, for [get_inputfiles]: without a last frame a missing file
    ends the scan with the frames found so far.  Not so when the first
    frame is the missing one. *)
Lemma get_inputfiles_counterexample :
  get_inputfiles 5 (fun _ => false) 0 (-1) = Raise not_found /\
  get_inputfiles 5 (fun _ => false) 0 (-1) <> Ok (py_range 0 0).
Proof. split; [reflexivity|discriminate]. Qed.

(** C5, amended: frames [first .. m-1] are there and frame [m] is not.
    With a last frame at or after [m] both loaders raise.  With
    frame_last = -1, [get_image_file_paths] returns the frames found, and
    so does [get_inputfiles] unless the missing frame is the first one, for
    which it raises. *)
Theorem missing_frame_handling (is_file : Z -> bool) (is_slice : Z -> Z -> bool)
    (z_slices first last m : Z) (fuel : nat) :
  (0 <= first <= m)%Z ->
  (Z.to_nat (m - first) < fuel)%nat ->
  (forall j, (first <= j < m)%Z -> is_file j = true) ->
  is_file m = false ->
  (forall j z, (first <= j < m)%Z -> (0 <= z < z_slices)%Z -> is_slice j z = true) ->
  (exists z, (0 <= z < z_slices)%Z /\ is_slice m z = false) ->
  ((m <= last)%Z ->
     get_inputfiles fuel is_file first last = Raise not_found /\
     get_image_file_paths fuel is_slice z_slices first last = Raise not_found) /\
  (last = (-1)%Z ->
     ((first < m)%Z -> get_inputfiles fuel is_file first last = Ok (py_range first m)) /\
     (m = first -> get_inputfiles fuel is_file first last = Raise not_found) /\
     get_image_file_paths fuel is_slice z_slices first last
       = Ok (map (frame_paths z_slices) (py_range first m))).
Proof.
  intros Hfm Hfuel Hfiles Hm Hslices (z0 & Hz0 & Hmz).
  set (k := Z.to_nat (m - first)).
  assert (Hk : (first + Z.of_nat k)%Z = m) by (unfold k; lia).
  destruct fuel as [|fuel']; [lia|].
  assert (Hsplit : S fuel' = (k + S (fuel' - k))%nat) by (fold k in Hfuel; lia).
  assert (Hnone : slice_stack is_slice m (py_range 0 z_slices) = None).
  { apply slice_stack_missing. exists z0. split; [|assumption].
    now apply In_py_range. }
  split.
  - intros Hlast. split.
    + unfold get_inputfiles.
      replace ((first >? last)%Z && (last >=? 0)%Z) with false
        by (symmetry; apply andb_false_iff; lia).
      replace (first <? 0)%Z with false by lia.
      rewrite Hsplit, inputfiles_loop_advance
        by (intros j Hj; split; [apply Hfiles|]; lia).
      rewrite Hk. cbn [inputfiles_loop]. rewrite Hm.
      replace ((last <? 0)%Z && negb (first =? m)%Z) with false
        by (symmetry; apply andb_false_iff; lia).
      reflexivity.
    + unfold get_image_file_paths.
      rewrite Hsplit, image_paths_loop_advance
        by (intros j Hj; split; [intros z Hz; apply Hslices|]; lia).
      rewrite Hk. cbn [image_paths_loop app].
      replace ((last =? -1)%Z || (m <=? last)%Z) with true
        by (symmetry; apply orb_true_iff; lia).
      rewrite Hnone, length_map, py_range_length.
      replace (negb (last =? -1)%Z
               && negb (Z.of_nat (Z.to_nat (m - first)) =? last - first + 1)%Z)
        with true
        by (symmetry; apply andb_true_iff; split; apply negb_true_iff; lia).
      reflexivity.
  - intros ->. split; [|split].
    + intros Hlt. unfold get_inputfiles.
      replace ((first >? -1)%Z && (-1 >=? 0)%Z) with false
        by (symmetry; apply andb_false_iff; lia).
      replace (first <? 0)%Z with false by lia.
      rewrite Hsplit, inputfiles_loop_advance
        by (intros j Hj; split; [apply Hfiles|]; lia).
      rewrite Hk. cbn [inputfiles_loop app]. rewrite Hm.
      replace ((-1 <? 0)%Z && negb (first =? m)%Z) with true
        by (symmetry; apply andb_true_iff; lia).
      reflexivity.
    + intros ->. unfold get_inputfiles.
      replace ((first >? -1)%Z && (-1 >=? 0)%Z) with false
        by (symmetry; apply andb_false_iff; lia).
      replace (first <? 0)%Z with false by lia.
      cbn [inputfiles_loop]. rewrite Hm.
      replace ((-1 <? 0)%Z && negb (first =? first)%Z) with false
        by (symmetry; apply andb_false_iff; lia).
      reflexivity.
    + unfold get_image_file_paths.
      rewrite Hsplit, image_paths_loop_advance
        by (intros j Hj; split; [intros z Hz; apply Hslices|]; lia).
      rewrite Hk. cbn [image_paths_loop app].
      rewrite Hnone. reflexivity.
Qed.

Lemma missing_frame_handling_witness :
  let is_file := fun i => (i <? 3)%Z in
  let is_slice := fun i (_ : Z) => (i <? 3)%Z in
  ((3 <= -1)%Z ->
     get_inputfiles 5 is_file 0 (-1) = Raise not_found /\
     get_image_file_paths 5 is_slice 1 0 (-1) = Raise not_found) /\
  ((-1)%Z = (-1)%Z ->
     ((0 < 3)%Z -> get_inputfiles 5 is_file 0 (-1) = Ok (py_range 0 3)) /\
     (3%Z = 0%Z -> get_inputfiles 5 is_file 0 (-1) = Raise not_found) /\
     get_image_file_paths 5 is_slice 1 0 (-1)
       = Ok (map (frame_paths 1) (py_range 0 3))).
Proof.
  apply (missing_frame_handling (fun i => (i <? 3)%Z) (fun i _ => (i <? 3)%Z)
           1 0 (-1) 3 5).
  - lia.
  - simpl. lia.
  - intros j Hj. lia.
  - reflexivity.
  - intros j z Hj _. lia.
  - exists 0%Z. split; [lia|reflexivity].
Defined.

(** Three frames on disk, five requested: both loaders raise. *)
Example missing_requested_frame :
  get_inputfiles 5 (fun i => (i <? 3)%Z) 0 4 = Raise not_found /\
  get_image_file_paths 5 (fun i _ => (i <? 3)%Z) 1 0 4 = Raise not_found.
Proof. split; reflexivity. Qed.

(** ** One distance map per rendered frame *)

Lemma appends_raise_bind P {A B} e (k : A -> M B) :
  appends_only P (bind (raise e) k).
Proof. now apply appends_nothing. Qed.

Lemma window_body_unbound_appends a e cfg window n_images sim_start ws :
  appends_only no_estimate
    (window_body a e cfg window n_images sim_start None ws).
Proof.
  unfold window_body, save_output, read_pad.
  apply appends_bind; [|intros; repeat (appends_step; try exact I)].
  apply appends_when. apply appends_bind; [repeat (appends_step; try exact I)|].
  intros _. apply appends_raise_bind.
Qed.

Lemma no_estimate_projections evs :
  Forall no_estimate evs -> dist_maps evs = [] /\ synth_frames evs = [].
Proof.
  induction 1 as [|ev evs Hev _ [IHd IHs]]; [split; reflexivity|].
  unfold dist_maps, synth_frames in *. simpl. rewrite IHd, IHs.
  destruct ev; try contradiction; split; reflexivity.
Qed.

(** C6: with the distance objective, every frame whose first estimate is
    rendered gets exactly one distance map, computed right then; when the
    loop runs through these are the frames 0..N-1, in order.  The map is
    the distance transform of [realimage < .5] divided by
    distanceCostDivisor * pixelsPerMicron, plus 1, so with a positive
    divisor every weight is at least 1. *)
Theorem distance_map_once_per_frame (a : args) (e : env) (cfg : dict)
    (ct : string) (dval pval : json) (divisor ppm : Q)
    (window n_images sim_start : Z) (pad : option Q) (w : world)
    (distance_transform_edt : list bool -> list Q) (realimage : list Q) :
  dist a = true ->
  dict_get "global.cellType" cfg = Some (JStr ct) ->
  dict_get (lower ct ++ ".distanceCostDivisor") cfg = Some dval ->
  num_of dval = Some divisor ->
  dict_get "global.pixelsPerMicron" cfg = Some pval ->
  num_of pval = Some ppm ->
  dict_has "overlap.cost" cfg = true ->
  dict_has "residual.vmin" cfg = true ->
  dict_has "residual.vmax" cfg = true ->
  (1 <= window)%Z -> (0 <= n_images)%Z ->
  (0 < divisor * ppm)%Q ->
  (forall mask, Forall (fun x => (0 <= x)%Q) (distance_transform_edt mask)) ->
  exists evs,
    trace (fst (window_loop a e cfg window n_images sim_start pad w))
      = trace w ++ evs /\
    dist_maps evs = map (fun f => (f, (divisor * ppm)%Q)) (synth_frames evs) /\
    (forall p, pad = Some p ->
       snd (window_loop a e cfg window n_images sim_start pad w) = Ok tt /\
       synth_frames evs = py_range 0 n_images) /\
    distance_map distance_transform_edt realimage (divisor * ppm)
      = map (fun x => (x / (divisor * ppm) + 1)%Q)
            (distance_transform_edt
               (map (fun v => negb (Qle_bool (1 # 2) v)) realimage)) /\
    Forall (fun y => (1 <= y)%Q)
           (distance_map distance_transform_edt realimage (divisor * ppm)).
Proof.
  intros Hd Hct Hdv Hdn Hpv Hpn Hoc Hmin Hmax Hw Hn Hpos Hedt.
  assert (Hready : config_ready a cfg (divisor * ppm)).
  { split; [|split; [|split; assumption]].
    - intros _. unfold distmap_divisor, subscript, str_of.
      now rewrite Hct, Hdv, Hpv, Hdn, Hpn.
    - unfold objective_weights. rewrite Hd.
      destruct (dict_has_subscript _ _ Hoc) as [v ->]. reflexivity. }
  destruct pad as [p|].
  - eexists. split; [|split; [|split; [|split]]].
    + now rewrite (window_loop_emits a e cfg _ window n_images sim_start p Hready w).
    + rewrite dist_maps_loop, synth_frames_loop by assumption.
      now rewrite map_map.
    + intros p' _.
      rewrite (window_loop_emits a e cfg _ window n_images sim_start p Hready w).
      split; [reflexivity|].
      rewrite synth_frames_loop. now apply estimated_frames.
    + reflexivity.
    + now apply distance_map_weights.
  - destruct (appends_for_each no_estimate (py_range (1 - window) n_images)
                (window_body a e cfg window n_images sim_start None)
                (window_body_unbound_appends a e cfg window n_images sim_start) w)
      as (evs & Hevs & Hall).
    destruct (no_estimate_projections evs Hall) as [Hdm Hsf].
    exists evs. split; [exact Hevs|]. split; [now rewrite Hdm, Hsf|].
    split; [discriminate|]. split; [reflexivity|].
    now apply distance_map_weights.
Qed.

Lemma distance_map_once_per_frame_witness :
  exists evs,
    trace (fst (window_loop dist_args (sample_env 10 []) (sample_config 10 []) 3 5 0
                  (Some 0%Q) empty_world))
      = trace empty_world ++ evs /\
    dist_maps evs = map (fun f => (f, (4 * 15)%Q)) (synth_frames evs) /\
    (forall p, Some 0%Q = Some p ->
       snd (window_loop dist_args (sample_env 10 []) (sample_config 10 []) 3 5 0
              (Some 0%Q) empty_world) = Ok tt /\
       synth_frames evs = py_range 0 5) /\
    distance_map run_length_row sample_row (4 * 15)
      = map (fun x => (x / (4 * 15) + 1)%Q)
            (run_length_row (map (fun v => negb (Qle_bool (1 # 2) v)) sample_row)) /\
    Forall (fun y => (1 <= y)%Q) (distance_map run_length_row sample_row (4 * 15)).
Proof.
  apply (distance_map_once_per_frame dist_args (sample_env 10 [])
           (sample_config 10 []) "Bacilli" (JNum 4) (JNum 15) 4 15 3 5 0
           (Some 0%Q) empty_world run_length_row sample_row).
  - reflexivity.
  - reflexivity.
  - reflexivity.
  - reflexivity.
  - reflexivity.
  - reflexivity.
  - reflexivity.
  - reflexivity.
  - reflexivity.
  - lia.
  - lia.
  - reflexivity.
  - apply run_length_row_nonneg.
Defined.

(** ** More on the input frames *)

(** The first index from [lo] on at which [f] fails, if there is one
    below [lo + n]. *)
Lemma first_failure (f : Z -> bool) (lo : Z) (n : nat) :
  (forall j, (lo <= j < lo + Z.of_nat n)%Z -> f j = true) \/
  (exists m, (lo <= m < lo + Z.of_nat n)%Z /\ f m = false /\
             forall j, (lo <= j < m)%Z -> f j = true).
Proof.
  induction n as [|n [IH|(m & Hm & Hf & Hbefore)]].
  - left. intros j Hj. lia.
  - destruct (f (lo + Z.of_nat n)%Z) eqn:E.
    + left. intros j Hj.
      destruct (Z.eq_dec j (lo + Z.of_nat n)%Z) as [->|Hne]; [exact E|].
      apply IH. lia.
    + right. exists (lo + Z.of_nat n)%Z. split; [lia|]. split; [exact E|].
      intros j Hj. apply IH. lia.
  - right. exists m. split; [lia|]. auto.
Qed.

Lemma py_range_snoc lo hi :
  (lo <= hi)%Z -> py_range lo (hi + 1) = py_range lo hi ++ [hi].
Proof.
  intros H. rewrite (py_range_split lo hi (hi + 1)) by lia. f_equal.
  rewrite py_range_cons by lia. unfold py_range.
  now replace (hi + 1 - (hi + 1))%Z with 0%Z by lia.
Qed.

Lemma py_range_empty lo hi : (hi <= lo)%Z -> py_range lo hi = [].
Proof.
  intros H. unfold py_range. now replace (Z.to_nat (hi - lo)) with 0%nat by lia.
Qed.

(** What the loop of [get_inputfiles] can return: the frames gathered so
    far and a run of existing files from [i] on; an empty run only away
    from the first frame. *)
Lemma inputfiles_loop_ok is_file first last :
  forall (fuel : nat) (i : Z) (acc l : list Z),
    inputfiles_loop fuel is_file first last i acc = Ok l ->
    exists k : nat,
      l = acc ++ py_range i (i + Z.of_nat k) /\
      (forall j, (i <= j < i + Z.of_nat k)%Z -> is_file j = true) /\
      (k = 0%nat -> i <> first /\ (last < 0)%Z) /\
      ((0 <= last)%Z -> (i <= last)%Z -> (i + Z.of_nat k = last + 1)%Z).
Proof.
  induction fuel as [|fuel IH]; intros i acc l H; [discriminate|].
  cbn [inputfiles_loop] in H. destruct (is_file i) eqn:Hfile.
  - destruct (i =? last)%Z eqn:Hlast.
    + injection H as <-. exists 1%nat. split; [|split; [|split]].
      * rewrite py_range_cons by lia. now rewrite py_range_empty by lia.
      * intros j Hj. now replace j with i by lia.
      * discriminate.
      * lia.
    + apply IH in H. destruct H as (k & -> & Hall & _ & Hend).
      exists (S k). split; [|split; [|split]].
      * rewrite <- app_assoc. cbn [app].
        rewrite (py_range_cons i (i + Z.of_nat (S k))) by lia.
        now replace (i + 1 + Z.of_nat k)%Z with (i + Z.of_nat (S k))%Z by lia.
      * intros j Hj. destruct (Z.eq_dec j i) as [->|Hne]; [exact Hfile|].
        apply Hall. lia.
      * discriminate.
      * intros H0 Hi. specialize (Hend H0). lia.
  - destruct ((last <? 0)%Z && negb (first =? i)%Z) eqn:Hstop; [|discriminate].
    injection H as <-. exists 0%nat. split; [|split; [|split]].
    + rewrite Z.add_0_r, py_range_empty by lia. now rewrite app_nil_r.
    + intros j Hj. lia.
    + intros _. lia.
    + lia.
Qed.


(** X1: whatever the directory holds, the frames [get_inputfiles] returns are
    a non-empty run of existing files that starts at frame_first; with an
    explicit last frame the run ends exactly there. *)
Theorem get_inputfiles_returns_run (fuel : nat) (is_file : Z -> bool)
    (first last : Z) (l : list Z) :
  get_inputfiles fuel is_file first last = Ok l ->
  (0 <= first)%Z /\ l <> [] /\
  exists m, (first < m)%Z /\ l = py_range first m /\
            (forall j, (first <= j < m)%Z -> is_file j = true) /\
            ((0 <= last)%Z -> m = (last + 1)%Z).
Proof.
  unfold get_inputfiles. intros H.
  destruct ((first >? last)%Z && (last >=? 0)%Z) eqn:Hint; [discriminate|].
  destruct (first <? 0)%Z eqn:Hneg; [discriminate|].
  apply inputfiles_loop_ok in H. destruct H as (k & -> & Hall & Hzero & Hend).
  assert (Hk : k <> 0%nat) by (intros Hk; destruct (Hzero Hk); congruence).
  split; [lia|]. split.
  - cbn [app]. rewrite py_range_cons by lia. discriminate.
  - exists (first + Z.of_nat k)%Z. split; [lia|]. split; [reflexivity|].
    split; [exact Hall|]. intros Hlast. apply Hend; lia.
Qed.

Lemma get_inputfiles_returns_run_witness :
  (0 <= 2)%Z /\ [2; 3; 4]%Z <> [] /\
  exists m, (2 < m)%Z /\ [2; 3; 4]%Z = py_range 2 m /\
            (forall j, (2 <= j < m)%Z -> (fun i => (i <? 5)%Z) j = true) /\
            ((0 <= -1)%Z -> m = (-1 + 1)%Z).
Proof.
  apply (get_inputfiles_returns_run 10 (fun i => (i <? 5)%Z) 2 (-1) [2; 3; 4]%Z).
  reflexivity.
Defined.

(** X2: with an explicit last frame the scan needs at most
    last - first + 1 probes and has one good outcome: all the frames
    first..last, which it returns exactly when they are all there and
    0 <= first <= last. *)
Theorem get_inputfiles_explicit_last (fuel : nat) (is_file : Z -> bool)
    (first last : Z) :
  (0 <= last)%Z ->
  (Z.to_nat (last - first) < fuel)%nat ->
  get_inputfiles fuel is_file first last <> OutOfFuel /\
  forall l,
    get_inputfiles fuel is_file first last = Ok l <->
    ((0 <= first <= last)%Z /\
     (forall j, (first <= j <= last)%Z -> is_file j = true) /\
     l = py_range first (last + 1)).
Proof.
  intros Hlast Hfuel. unfold get_inputfiles.
  destruct ((first >? last)%Z && (last >=? 0)%Z) eqn:Hint.
  { split; [discriminate|]. intros l. split; [discriminate|]. lia. }
  destruct (first <? 0)%Z eqn:Hneg.
  { split; [discriminate|]. intros l. split; [discriminate|]. lia. }
  assert (Hfl : (0 <= first <= last)%Z) by lia.
  destruct fuel as [|fuel']; [lia|].
  destruct (first_failure is_file first (Z.to_nat (last - first)))
    as [Hall|(m & Hm & Hmiss & Hbefore)].
  - (* every frame before the last is there *)
    set (k := Z.to_nat (last - first)) in *.
    assert (Hsplit : S fuel' = (k + S (fuel' - k))%nat) by lia.
    rewrite Hsplit, inputfiles_loop_advance
      by (intros j Hj; split; [now apply Hall|lia]).
    replace (first + Z.of_nat k)%Z with last by lia.
    cbn [inputfiles_loop app]. destruct (is_file last) eqn:Hl.
    + replace (last =? last)%Z with true by lia.
      rewrite <- py_range_snoc by lia.
      split; [discriminate|]. intros l. split.
      * intros [= <-]. split; [exact Hfl|]. split; [|reflexivity].
        intros j Hj. destruct (Z.eq_dec j last) as [->|Hne]; [exact Hl|].
        apply Hall. lia.
      * intros (_ & _ & ->). reflexivity.
    + replace ((last <? 0)%Z && negb (first =? last)%Z) with false by lia.
      split; [discriminate|]. intros l. split; [discriminate|].
      intros (_ & Hex & _). rewrite Hex in Hl by lia. discriminate.
  - (* frame m is the first one missing *)
    set (k := Z.to_nat (m - first)).
    assert (Hsplit : S fuel' = (k + S (fuel' - k))%nat) by lia.
    rewrite Hsplit, inputfiles_loop_advance
      by (intros j Hj; split; [apply Hbefore|]; lia).
    replace (first + Z.of_nat k)%Z with m by lia.
    cbn [inputfiles_loop]. rewrite Hmiss.
    replace ((last <? 0)%Z && negb (first =? m)%Z) with false by lia.
    split; [discriminate|]. intros l. split; [discriminate|].
    intros (_ & Hex & _). rewrite Hex in Hmiss by lia. discriminate.
Qed.

Lemma get_inputfiles_explicit_last_witness :
  get_inputfiles 10 (fun i => (i <? 5)%Z) 1 3 <> OutOfFuel /\
  forall l,
    get_inputfiles 10 (fun i => (i <? 5)%Z) 1 3 = Ok l <->
    ((0 <= 1 <= 3)%Z /\
     (forall j, (1 <= j <= 3)%Z -> (fun i => (i <? 5)%Z) j = true) /\
     l = py_range 1 (3 + 1)).
Proof.
  apply (get_inputfiles_explicit_last 10 (fun i => (i <? 5)%Z) 1 3).
  - lia.
  - simpl. lia.
Defined.

Lemma slice_stack_complete is_slice z_slices i :
  slice_stack is_slice i (py_range 0 z_slices)
  = if frame_complete is_slice z_slices i
    then Some (frame_paths z_slices i) else None.
Proof.
  unfold frame_complete, frame_paths.
  induction (py_range 0 z_slices) as [|z zs IH]; simpl; [reflexivity|].
  destruct (is_slice i z); simpl; [|reflexivity].
  rewrite IH. now destruct (forallb (is_slice i) zs).
Qed.

Lemma frame_complete_true is_slice z_slices i :
  frame_complete is_slice z_slices i = true <->
  forall z, (0 <= z < z_slices)%Z -> is_slice i z = true.
Proof.
  unfold frame_complete. rewrite forallb_forall. split.
  - intros H z Hz. apply H. now apply In_py_range.
  - intros H z Hz. apply H. now apply In_py_range in Hz.
Qed.

Lemma image_paths_loop_complete is_slice z_slices first last :
  forall (k fuel : nat) (i : Z) (stack : list (list (Z * Z))),
    (forall j, (i <= j < i + Z.of_nat k)%Z ->
               frame_complete is_slice z_slices j = true
               /\ (last = -1 \/ j <= last)%Z) ->
    image_paths_loop (k + fuel) is_slice z_slices first last i stack
    = image_paths_loop fuel is_slice z_slices first last (i + Z.of_nat k)
        (stack ++ map (frame_paths z_slices) (py_range i (i + Z.of_nat k))).
Proof.
  intros k fuel i stack H. apply image_paths_loop_advance.
  intros j Hj. destruct (H j Hj) as [Hc Hl]. split; [|exact Hl].
  now apply frame_complete_true.
Qed.

(** X3: with an explicit last frame [get_image_file_paths] returns all the
    frames first..last, each with all its slices, exactly when every one
    of these files is there; a last frame before the first gives the empty
    list. *)
Theorem get_image_file_paths_explicit_last (fuel : nat)
    (is_slice : Z -> Z -> bool) (z_slices first last : Z) :
  last <> (-1)%Z ->
  (Z.to_nat (last + 1 - first) < fuel)%nat ->
  get_image_file_paths fuel is_slice z_slices first last <> OutOfFuel /\
  forall l,
    get_image_file_paths fuel is_slice z_slices first last = Ok l <->
    ((forall j z, (first <= j <= last)%Z -> (0 <= z < z_slices)%Z ->
                  is_slice j z = true) /\
     l = map (frame_paths z_slices) (py_range first (last + 1))).
Proof.
  intros Hlast Hfuel. unfold get_image_file_paths.
  destruct fuel as [|fuel']; [lia|].
  destruct (first_failure (frame_complete is_slice z_slices) first
              (Z.to_nat (last + 1 - first)))
    as [Hall|(m & Hm & Hmiss & Hbefore)].
  - set (k := Z.to_nat (last + 1 - first)) in *.
    assert (Hsplit : S fuel' = (k + S (fuel' - k))%nat) by lia.
    rewrite Hsplit, image_paths_loop_complete
      by (intros j Hj; split; [now apply Hall|lia]).
    cbn [image_paths_loop app].
    replace ((last =? -1)%Z || (first + Z.of_nat k <=? last)%Z) with false by lia.
    assert (Hrange : py_range first (first + Z.of_nat k) = py_range first (last + 1)).
    { destruct (Z_le_gt_dec first (last + 1)).
      - f_equal. lia.
      - now rewrite !py_range_empty by lia. }
    rewrite Hrange. split; [discriminate|]. intros l. split.
    + intros [= <-]. split; [|reflexivity]. intros j z Hj Hz.
      apply (frame_complete_true is_slice z_slices j); [|exact Hz].
      apply Hall. lia.
    + intros (_ & ->). reflexivity.
  - set (k := Z.to_nat (m - first)).
    assert (Hsplit : S fuel' = (k + S (fuel' - k))%nat) by lia.
    rewrite Hsplit, image_paths_loop_complete
      by (intros j Hj; split; [apply Hbefore|]; lia).
    replace (first + Z.of_nat k)%Z with m by lia.
    cbn [image_paths_loop app].
    replace ((last =? -1)%Z || (m <=? last)%Z) with true by lia.
    rewrite slice_stack_complete, Hmiss, length_map, py_range_length.
    replace (negb (last =? -1)%Z
             && negb (Z.of_nat (Z.to_nat (m - first)) =? last - first + 1)%Z)
      with true by lia.
    split; [discriminate|]. intros l. split; [discriminate|].
    intros (Hex & _).
    assert (frame_complete is_slice z_slices m = true)
      by (apply frame_complete_true; intros z Hz; apply Hex; lia).
    congruence.
Qed.

Lemma get_image_file_paths_explicit_last_witness :
  get_image_file_paths 10 (fun i _ => (i <? 5)%Z) 2 1 3 <> OutOfFuel /\
  forall l,
    get_image_file_paths 10 (fun i _ => (i <? 5)%Z) 2 1 3 = Ok l <->
    ((forall j z, (1 <= j <= 3)%Z -> (0 <= z < 2)%Z ->
                  (fun i (_ : Z) => (i <? 5)%Z) j z = true) /\
     l = map (frame_paths 2) (py_range 1 (3 + 1))).
Proof.
  apply (get_image_file_paths_explicit_last 10 (fun i _ => (i <? 5)%Z) 2 1 3).
  - discriminate.
  - simpl. lia.
Defined.

(** X5: with no slices to look for and no last frame, [get_image_file_paths]
    never finds a missing file: the loop does not end, whatever the fuel. *)
Theorem get_image_file_paths_no_slices_diverges (fuel : nat)
    (is_slice : Z -> Z -> bool) (z_slices first : Z) :
  (z_slices <= 0)%Z ->
  get_image_file_paths fuel is_slice z_slices first (-1) = OutOfFuel.
Proof.
  intros Hz. unfold get_image_file_paths.
  generalize (@nil (list (Z * Z))) as stack. generalize first at 2 as i.
  induction fuel as [|fuel IH]; intros i stack; [reflexivity|].
  cbn [image_paths_loop]. rewrite py_range_empty by lia.
  replace ((-1 =? -1)%Z || (i <=? -1)%Z) with true by lia.
  cbn [slice_stack]. apply IH.
Qed.

Lemma get_image_file_paths_no_slices_diverges_witness :
  get_image_file_paths 50 (fun _ _ => false) 0 0 (-1) = OutOfFuel.
Proof.
  apply (get_image_file_paths_no_slices_diverges 50 (fun _ _ => false) 0 0). lia.
Defined.

Lemma image_paths_loop_open_end is_slice z_slices first :
  forall (fuel : nat) (i : Z) (stack : list (list (Z * Z))),
    (forall e, image_paths_loop fuel is_slice z_slices first (-1) i stack
               <> Raise e) /\
    forall l,
      image_paths_loop fuel is_slice z_slices first (-1) i stack = Ok l ->
      exists k : nat,
        l = stack ++ map (frame_paths z_slices) (py_range i (i + Z.of_nat k)) /\
        (forall j, (i <= j < i + Z.of_nat k)%Z ->
                   frame_complete is_slice z_slices j = true) /\
        frame_complete is_slice z_slices (i + Z.of_nat k) = false.
Proof.
  induction fuel as [|fuel IH]; intros i stack.
  { split; [discriminate|]. discriminate. }
  cbn [image_paths_loop].
  replace ((-1 =? -1)%Z || (i <=? -1)%Z) with true by lia.
  rewrite slice_stack_complete.
  destruct (frame_complete is_slice z_slices i) eqn:Hc.
  - destruct (IH (i + 1)%Z (stack ++ [frame_paths z_slices i])) as [Hne Hok].
    split; [exact Hne|]. intros l Hl.
    destruct (Hok l Hl) as (k & -> & Hall & Hstop). exists (S k).
    split; [|split].
    + rewrite <- app_assoc. cbn [app].
      rewrite (py_range_cons i (i + Z.of_nat (S k))) by lia. cbn [map].
      now replace (i + 1 + Z.of_nat k)%Z with (i + Z.of_nat (S k))%Z by lia.
    + intros j Hj. destruct (Z.eq_dec j i) as [->|Hne']; [exact Hc|].
      apply Hall. lia.
    + now replace (i + Z.of_nat (S k))%Z with (i + 1 + Z.of_nat k)%Z by lia.
  - cbn [negb andb Z.eqb]. split; [discriminate|].
    intros l [= <-]. exists 0%nat. split; [|split].
    + rewrite Z.add_0_r, py_range_empty by lia. simpl. now rewrite app_nil_r.
    + intros j Hj. lia.
    + now rewrite Z.add_0_r.
Qed.

(** X4: with last_frame = -1 [get_image_file_paths] never raises, and it
    returns as soon as the fuel reaches the first frame with a slice
    missing: the result is then the list of the complete frames from
    first_frame up to (not including) that frame, possibly empty.
    Conversely whatever it returns is of that form. *)
Theorem get_image_file_paths_open_end (fuel : nat) (is_slice : Z -> Z -> bool)
    (z_slices first : Z) :
  (forall e, get_image_file_paths fuel is_slice z_slices first (-1) <> Raise e) /\
  (forall m,
     (first <= m)%Z ->
     (forall j z, (first <= j < m)%Z -> (0 <= z < z_slices)%Z ->
                  is_slice j z = true) ->
     (exists z, (0 <= z < z_slices)%Z /\ is_slice m z = false) ->
     (Z.to_nat (m - first) < fuel)%nat ->
     get_image_file_paths fuel is_slice z_slices first (-1)
     = Ok (map (frame_paths z_slices) (py_range first m))) /\
  forall l,
    get_image_file_paths fuel is_slice z_slices first (-1) = Ok l ->
    exists m, (first <= m)%Z /\
      l = map (frame_paths z_slices) (py_range first m) /\
      (forall j z, (first <= j < m)%Z -> (0 <= z < z_slices)%Z ->
                   is_slice j z = true) /\
      exists z, (0 <= z < z_slices)%Z /\ is_slice m z = false.
Proof.
  unfold get_image_file_paths.
  destruct (image_paths_loop_open_end is_slice z_slices first fuel first [])
    as [Hne Hok].
  split; [exact Hne|]. split.
  - intros m Hm Hall (z & Hz & Hmiss) Hfuel.
    set (k := Z.to_nat (m - first)).
    replace fuel with (k + S (fuel - S k))%nat by (unfold k; lia).
    rewrite image_paths_loop_advance.
    2:{ intros j Hj. split; [|now left].
        intros z' Hz'. apply Hall; [unfold k in Hj; lia|exact Hz']. }
    replace (first + Z.of_nat k)%Z with m by (unfold k; lia).
    cbn [image_paths_loop app].
    replace ((-1 =? -1)%Z || (m <=? -1)%Z) with true by lia.
    rewrite slice_stack_missing.
    2:{ exists z. split; [now apply In_py_range|exact Hmiss]. }
    reflexivity.
  - intros l Hl.
    destruct (Hok l Hl) as (k & -> & Hall & Hstop).
    exists (first + Z.of_nat k)%Z. split; [lia|]. split; [reflexivity|]. split.
    + intros j z Hj Hz.
      now apply (frame_complete_true is_slice z_slices j); [apply Hall|].
    + unfold frame_complete in Hstop.
      assert (Hex : exists z, In z (py_range 0 z_slices)
                              /\ is_slice (first + Z.of_nat k)%Z z = false).
      { induction (py_range 0 z_slices) as [|z zs IHz]; [discriminate|].
        simpl in Hstop. destruct (is_slice (first + Z.of_nat k)%Z z) eqn:E.
        - destruct (IHz Hstop) as (z' & Hin & Hz'). exists z'. split; [now right|auto].
        - exists z. split; [now left|exact E]. }
      destruct Hex as (z & Hin & Hz). exists z. split; [|exact Hz].
      now apply In_py_range in Hin.
Qed.

Lemma get_image_file_paths_open_end_witness :
  get_image_file_paths 10 (fun j z => (j <? 3)%Z || (z =? 0)%Z) 2 0 (-1)
  = Ok (map (frame_paths 2) (py_range 0 3)).
Proof.
  apply (proj1 (proj2 (get_image_file_paths_open_end 10
                         (fun j z => (j <? 3)%Z || (z =? 0)%Z) 2 0)) 3%Z).
  - lia.
  - intros j z Hj Hz. apply orb_true_iff. left. lia.
  - exists 1%Z. split; [lia|reflexivity].
  - simpl. lia.
Defined.

(** ** Loading the configuration *)

Lemma load_config_accepts e w config name :
  acceptable_config e config name ->
  load_config e w
  = (World (<[fresh (dom (objs w)) := config]> (objs w)) (trace w),
     Ok (fresh (dom (objs w)))).
Proof.
  intros (Hp & Hct & Hppm & Hfps & Hlow & Hcheck). unfold load_config.
  rewrite Hp. unfold dict_has at 1. rewrite Hct, Hppm, Hfps. cbn [negb].
  unfold bind, lift, subscript, str_of. rewrite Hct, Hlow. cbn [String.eqb].
  rewrite Hcheck. reflexivity.
Qed.

(** X7: [load_config] accepts exactly the dictionaries that hold the three
    global keys, name the cell type bacilli in any letter case and pass
    [checkconfig]; the configuration then is a new object holding what the
    file held, and nothing else in the store has changed. *)
Theorem load_config_accepts_iff (e : env) (w w' : world) (l : loc) :
  load_config e w = (w', Ok l) <->
  exists config name,
    acceptable_config e config name /\
    l = fresh (dom (objs w)) /\
    w' = World (<[l := config]> (objs w)) (trace w).
Proof.
  split.
  - unfold load_config. destruct (parsed_config e) as [| | | |config] eqn:Hp;
      try discriminate.
    destruct (dict_has "global.cellType" config) eqn:Hct; [|discriminate].
    destruct (dict_has "global.pixelsPerMicron" config) eqn:Hppm; [|discriminate].
    destruct (dict_has "global.framesPerSecond" config) eqn:Hfps; [|discriminate].
    cbn [negb]. intros H.
    apply bind_inv in H. destruct H as (w1 & ct & Hsub & H).
    apply lift_inv in Hsub. destruct Hsub as [-> Hsub].
    apply bind_inv in H. destruct H as (w1 & name & Hname & H).
    apply lift_inv in Hname. destruct Hname as [-> Hname].
    destruct (String.eqb (lower name) "bacilli") eqn:Hb; [|discriminate].
    apply bind_inv in H. destruct H as (w1 & [] & Hcheck & H).
    apply lift_inv in Hcheck. destruct Hcheck as [-> Hcheck].
    unfold alloc in H. injection H as <- <-.
    apply subscript_inv in Hsub. apply str_of_inv in Hname. subst ct.
    exists config, name. split; [|split; reflexivity].
    repeat split; try assumption. now apply String.eqb_eq.
  - intros (config & name & Hacc & -> & ->).
    now apply (load_config_accepts e w config name).
Qed.

Lemma load_config_raise_keeps_world (e : env) (w : world) (err : exn) :
  snd (load_config e w) = Raise err -> fst (load_config e w) = w.
Proof.
  unfold load_config. destruct (parsed_config e) as [| | | |config];
    try reflexivity.
  destruct (negb (dict_has "global.cellType" config)); [reflexivity|].
  destruct (negb (dict_has "global.pixelsPerMicron" config)); [reflexivity|].
  destruct (negb (dict_has "global.framesPerSecond" config)); [reflexivity|].
  unfold bind, lift.
  destruct (subscript config "global.cellType") as [ct| |]; try reflexivity.
  destruct (str_of ct) as [name| |]; try reflexivity.
  destruct (String.eqb (lower name) "bacilli"); [|reflexivity].
  destruct (checkconfig e config) as [[]| |]; try reflexivity.
  discriminate.
Qed.

(** A configuration [load_config] does not accept leaves the store and the
    trace as they were. *)
Theorem load_config_rejects_cleanly (e : env) (w : world) (err : exn) :
  snd (load_config e w) = Raise err -> fst (load_config e w) = w.
Proof. apply load_config_raise_keeps_world. Qed.

Lemma load_config_rejects_cleanly_witness :
  fst (load_config unsupported_env empty_world) = empty_world.
Proof.
  apply (load_config_rejects_cleanly unsupported_env empty_world
           (ValueError "Invalid config: unsupported cell type")).
  reflexivity.
Defined.

(** X8: a configuration error ends main at once: nothing is loaded into the
    store and nothing is written. *)
Theorem main_config_error (fuel : nat) (a : args) (e : env) (w : world) (err : exn) :
  temps_given a && (auto_temp a =? 1)%Z = false ->
  snd (load_config e w) = Raise err ->
  main fuel a e w = (w, Raise err).
Proof.
  intros Htemps Herr. unfold main. rewrite Htemps.
  pose proof (load_config_raise_keeps_world e w err Herr) as Hw.
  unfold bind at 1. unfold startup. unfold bind at 1.
  destruct (load_config e w) as [w1 r]. simpl in Herr, Hw. now subst.
Qed.

Lemma main_config_error_witness :
  main 10 sample_args unsupported_env empty_world
  = (empty_world, Raise (ValueError "Invalid config: unsupported cell type")).
Proof.
  apply (main_config_error 10 sample_args unsupported_env empty_world).
  - reflexivity.
  - reflexivity.
Defined.

(** ** Start-up and the paths through main *)



(** X9: when none of the image-type flags is set, main stops with a ValueError
    after loading the configuration: the object is in the store as the
    file had it, and neither the seed is drawn nor a file written. *)
Theorem main_without_image_type (fuel : nat) (a : args) (e : env) (w : world)
    (config : dict) (name : string) (sim : json) :
  temps_given a && (auto_temp a =? 1)%Z = false ->
  acceptable_config e config name ->
  dict_get "simulation" config = Some sim ->
  image_type a = None ->
  main fuel a e w
  = (World (<[fresh (dom (objs w)) := config]> (objs w)) (trace w),
     Raise (ValueError "Invalid Command: Synthetic image type must be specified")).
Proof.
  intros Htemps Hacc Hsim Hty. unfold main. rewrite Htemps.
  apply bind_raise. unfold startup.
  rewrite (bind_ok _ _ _ _ _ (load_config_accepts e w config name Hacc)).
  set (l := fresh (dom (objs w))).
  set (w1 := World (<[l := config]> (objs w)) (trace w)).
  assert (Hd0 : deref l w1 = (w1, Ok config)).
  { unfold deref, w1. cbn [objs]. now rewrite lookup_insert_eq. }
  rewrite (bind_ok _ _ _ _ _ Hd0).
  assert (Hs : lift (subscript config "simulation") w1 = (w1, Ok sim)).
  { unfold lift, subscript. now rewrite Hsim. }
  rewrite (bind_ok _ _ _ _ _ Hs).
  apply bind_raise. unfold image_type in Hty.
  destruct (graySynthetic a); [discriminate|].
  destruct (phaseContrast a); [discriminate|].
  destruct (binary a); [discriminate|]. reflexivity.
Qed.



(** ** The global-optimization path, end to end *)

Lemma global_run_ok (a : args) (sa : loc) (e : env) (imagefiles : list Z)
    (w : world) (d simd : dict) (wv pv ipcv : json) (window : Z) (p dv : Q) :
  objs w !! sa = Some d ->
  dict_get "global_optimizer.window_size" d = Some wv ->
  int_of wv = Ok window ->
  dict_get "simulation" d = Some (JObj simd) ->
  dict_get "padding" simd = Some pv ->
  num_of pv = Some p ->
  dict_get "iteration_per_cell" d = Some ipcv ->
  (1 <= Z.of_nat (length imagefiles))%Z ->
  config_ready a d dv ->
  global_run a sa e imagefiles w
  = (World (objs w)
       (trace w ++ [EvLoadImages; EvCreateLineage sa; EvShiftCells p] ++
        flat_map (body_events a e dv window (Z.of_nat (length imagefiles))
                    (continue_from a - frame_first a) p)
                 (py_range (1 - window) (Z.of_nat (length imagefiles)))),
     Ok 0%Z).
Proof.
  intros Hobj Hwin Hint Hsim Hpad Hp Hipc Hn Hready.
  unfold global_run.
  rewrite (bind_ok (emit EvLoadImages) _ _ _ _ eq_refl).
  rewrite (bind_ok (emit (EvCreateLineage sa)) _ _ _ _ eq_refl).
  cbn [objs trace]. rewrite <- app_assoc. cbn [app].
  set (w2 := World (objs w) (trace w ++ [EvLoadImages; EvCreateLineage sa])).
  assert (Hderef : deref sa w2 = (w2, Ok d)).
  { unfold deref. simpl. now rewrite Hobj. }
  rewrite (bind_ok _ _ _ _ _ Hderef).
  assert (Hwv : lift (subscript d "global_optimizer.window_size") w2 = (w2, Ok wv)).
  { unfold lift, subscript. now rewrite Hwin. }
  rewrite (bind_ok _ _ _ _ _ Hwv).
  assert (Hlen : (if length imagefiles is O then raise IndexError else ret tt) w2
                 = (w2, Ok tt)).
  { destruct imagefiles; [simpl in Hn; lia|reflexivity]. }
  rewrite (bind_ok _ _ _ _ _ Hlen).
  assert (Hs : lift (subscript d "simulation") w2 = (w2, Ok (JObj simd))).
  { unfold lift, subscript. now rewrite Hsim. }
  rewrite (bind_ok _ _ _ _ _ Hs).
  rewrite (bind_ok (lift (obj_of (JObj simd))) _ w2 w2 simd eq_refl).
  set (w3 := World (objs w)
               (trace w ++ [EvLoadImages; EvCreateLineage sa; EvShiftCells p])).
  assert (Hpadc :
    (if dict_has "padding" simd then
       pv0 <~ lift (subscript simd "padding") ;;
       p0 <~ lift (number_of pv0) ;;
       emit (EvShiftCells p0) ;;;
       ret (Some p0)
     else ret None) w2 = (w3, Ok (Some p))).
  { unfold dict_has, bind, lift, subscript, number_of, emit, ret.
    rewrite Hpad, Hp. unfold w2, w3. cbn [objs trace].
    now rewrite <- app_assoc. }
  rewrite (bind_ok _ _ _ _ _ Hpadc).
  assert (Hi : lift (subscript d "iteration_per_cell") w3 = (w3, Ok ipcv)).
  { unfold lift, subscript. now rewrite Hipc. }
  rewrite (bind_ok _ _ _ _ _ Hi).
  assert (Hwi : lift (int_of wv) w3 = (w3, Ok window)).
  { unfold lift. now rewrite Hint. }
  rewrite (bind_ok _ _ _ _ _ Hwi).
  rewrite (bind_ok _ _ _ _ _
             (window_loop_emits a e d dv window (Z.of_nat (length imagefiles))
                (continue_from a - frame_first a) p Hready w3)).
  unfold ret, w3. cbn [objs trace]. now rewrite <- app_assoc.
Qed.

(** X13: with a [padding] key and a complete configuration the window phase
    runs through: the cells are shifted by the padding once, every frame
    gets its first estimate, its lineage records and its images exactly
    once and in frame order, and a job is dispatched for every window
    start from sim_start on. *)
Theorem global_run_with_padding (a : args) (sa : loc) (e : env)
    (imagefiles : list Z) (w : world) (d simd : dict) (wv pv ipcv : json)
    (window : Z) (p dv : Q) :
  objs w !! sa = Some d ->
  dict_get "global_optimizer.window_size" d = Some wv ->
  int_of wv = Ok window ->
  (1 <= window)%Z ->
  dict_get "simulation" d = Some (JObj simd) ->
  dict_get "padding" simd = Some pv ->
  num_of pv = Some p ->
  dict_get "iteration_per_cell" d = Some ipcv ->
  (1 <= Z.of_nat (length imagefiles))%Z ->
  config_ready a d dv ->
  exists evs,
    global_run a sa e imagefiles w
    = (World (objs w)
         (trace w ++ [EvLoadImages; EvCreateLineage sa; EvShiftCells p] ++ evs),
       Ok 0%Z) /\
    synth_frames evs = py_range 0 (Z.of_nat (length imagefiles)) /\
    saved_frames evs = py_range 0 (Z.of_nat (length imagefiles)) /\
    output_frames evs = py_range 0 (Z.of_nat (length imagefiles)) /\
    optimize_calls evs
    = map (fun ws => (ws, (ws + window)%Z))
          (List.filter (fun ws => (ws >=? continue_from a - frame_first a)%Z)
                       (py_range (1 - window) (Z.of_nat (length imagefiles)))).
Proof.
  intros Hobj Hwin Hint Hw Hsim Hpad Hp Hipc Hn Hready.
  eexists. split.
  - now apply (global_run_ok a sa e imagefiles w d simd wv pv ipcv window p dv).
  - rewrite synth_frames_loop, saved_frames_loop, output_frames_loop,
      optimize_calls_loop.
    rewrite estimated_frames, filter_range_from by lia. auto.
Qed.




Lemma sample_acceptable ipc simulation :
  acceptable_config (sample_env ipc simulation) (sample_config ipc simulation)
    "Bacilli".
Proof. repeat split. Qed.

Lemma main_without_image_type_witness :
  main 10 no_type_args (sample_env 10 []) empty_world
  = (World (<[fresh (dom (objs empty_world)) := sample_config 10 []]>
              (objs empty_world)) (trace empty_world),
     Raise (ValueError "Invalid Command: Synthetic image type must be specified")).
Proof.
  apply (main_without_image_type 10 no_type_args (sample_env 10 []) empty_world
           (sample_config 10 []) "Bacilli" (JObj [])).
  - reflexivity.
  - apply sample_acceptable.
  - reflexivity.
  - reflexivity.
Defined.



Lemma sample_numeric k v :
  In (k, v) sample_perturbation -> key_in k keys_to_modify = true ->
  exists q, num_of v = Some q.
Proof.
  intros Hin _. simpl in Hin.
  repeat (destruct Hin as [[= <- <-]|Hin]; [eexists; reflexivity|]).
  destruct Hin.
Qed.

Lemma global_run_with_padding_witness :
  exists evs,
    global_run sample_args 0%nat (sample_env 10 [("padding", JNum 2)])
      [0; 1; 2; 3; 4]%Z (sample_world 10 [("padding", JNum 2)])
    = (World (objs (sample_world 10 [("padding", JNum 2)]))
         (trace (sample_world 10 [("padding", JNum 2)])
          ++ [EvLoadImages; EvCreateLineage 0%nat; EvShiftCells 2] ++ evs),
       Ok 0%Z) /\
    synth_frames evs = py_range 0 (Z.of_nat (length [0; 1; 2; 3; 4]%Z)) /\
    saved_frames evs = py_range 0 (Z.of_nat (length [0; 1; 2; 3; 4]%Z)) /\
    output_frames evs = py_range 0 (Z.of_nat (length [0; 1; 2; 3; 4]%Z)) /\
    optimize_calls evs
    = map (fun ws => (ws, (ws + 3)%Z))
          (List.filter
             (fun ws => (ws >=? continue_from sample_args - frame_first sample_args)%Z)
             (py_range (1 - 3) (Z.of_nat (length [0; 1; 2; 3; 4]%Z)))).
Proof.
  apply (global_run_with_padding sample_args 0%nat
           (sample_env 10 [("padding", JNum 2)]) [0; 1; 2; 3; 4]%Z
           (sample_world 10 [("padding", JNum 2)])
           (sample_config 10 [("padding", JNum 2)]) [("padding", JNum 2)]
           (JNum 3) (JNum 2) (JNum 10) 3 2 0).
  - reflexivity.
  - reflexivity.
  - reflexivity.
  - lia.
  - reflexivity.
  - reflexivity.
  - reflexivity.
  - reflexivity.
  - simpl. lia.
  - apply sample_config_ready.
Defined.


(** ** The header of the lineage log *)



(** ** Calibration, padding and forward copies in the window loop *)

Lemma auto_temps_body a e dv window n_images sim_start p ws :
  auto_meth a <> "frame" ->
  auto_temps (body_events a e dv window n_images sim_start p ws)
  = if (ws + window <=? n_images)%Z && (auto_temp a =? 1)%Z && (ws + window =? 1)%Z
    then [(0, 1)%Z] else [].
Proof.
  intros Hmeth.
  assert (Hf : String.eqb (auto_meth a) "frame" = false)
    by (now apply String.eqb_neq).
  unfold auto_temps, body_events, estimate_events. rewrite Hf.
  rewrite !flat_map_app.
  destruct (ws + window <=? n_images)%Z, (auto_temp a =? 1)%Z,
    (ws + window =? 1)%Z; cbn [andb]; split_ifs; reflexivity.
Qed.

Lemma padded_frames_body a e dv window n_images sim_start p ws :
  padded_frames (body_events a e dv window n_images sim_start p ws)
  = if (ws + window <=? n_images)%Z && negb (Qle_bool p 0)
    then [((ws + window - 1)%Z, p)] else [].
Proof.
  unfold padded_frames, body_events, estimate_events.
  rewrite !flat_map_app.
  destruct (ws + window <=? n_images)%Z, (negb (Qle_bool p 0)); cbn [andb];
    split_ifs; reflexivity.
Qed.

Lemma copy_forwards_body a e dv window n_images sim_start p ws :
  copy_forwards (body_events a e dv window n_images sim_start p ws)
  = if (ws + window <=? n_images)%Z && (ws >=? sim_start)%Z && (ws + window >? 1)%Z
    then [tt] else [].
Proof.
  unfold copy_forwards, body_events, estimate_events.
  rewrite !flat_map_app.
  destruct (ws + window <=? n_images)%Z, (ws >=? sim_start)%Z,
    (ws + window >? 1)%Z; cbn [andb]; split_ifs; reflexivity.
Qed.

Lemma auto_temps_app l1 l2 : auto_temps (l1 ++ l2) = auto_temps l1 ++ auto_temps l2.
Proof. apply flat_map_app. Qed.

Lemma auto_temps_flat_map {A} (f : A -> list event) xs :
  auto_temps (flat_map f xs) = flat_map (fun x => auto_temps (f x)) xs.
Proof. apply flat_map_nest. Qed.

Lemma flat_map_nothing {A B} (f : A -> list B) l :
  (forall x, In x l -> f x = []) -> flat_map f l = [].
Proof.
  induction l as [|x l IH]; intros H; simpl; [reflexivity|].
  rewrite (H x) by now left. apply IH. intros y Hy. apply H. now right.
Qed.

(** X14: unless the schedule is re-run per frame (auto_meth = frame), the
    automatic temperature calibration runs once when auto_temp = 1, on the
    window (0, 1) in the first iteration and so before any annealing job,
    and not at all otherwise. *)
Theorem auto_temp_calibrates_once a e cfg dv window n_images sim_start p w :
  config_ready a cfg dv ->
  auto_meth a <> "frame" ->
  (1 <= window)%Z -> (1 <= n_images)%Z ->
  exists evs,
    window_loop a e cfg window n_images sim_start (Some p) w
      = (World (objs w) (trace w ++ evs), Ok tt) /\
    (auto_temp a <> 1%Z -> auto_temps evs = []) /\
    (auto_temp a = 1%Z ->
       auto_temps evs = [(0, 1)%Z] /\
       exists pre post,
         evs = pre ++ EvAutoTemp 0 1 :: post /\ optimize_calls pre = []).
Proof.
  intros Hready Hmeth Hw Hn. eexists. split.
  - apply (window_loop_emits a e cfg dv window n_images sim_start p Hready w).
  - assert (Hrest : forall x, In x (py_range (1 - window + 1) n_images) ->
        auto_temps (body_events a e dv window n_images sim_start p x) = []).
    { intros x Hx. apply In_py_range in Hx. rewrite auto_temps_body by assumption.
      replace (x + window =? 1)%Z with false by lia.
      now rewrite andb_false_r. }
    rewrite (py_range_cons (1 - window) n_images) by lia. cbn [flat_map].
    split.
    + intros Hauto. rewrite auto_temps_app, auto_temps_flat_map.
      rewrite (flat_map_nothing _ _ Hrest), app_nil_r.
      rewrite auto_temps_body by assumption.
      replace (auto_temp a =? 1)%Z with false by lia.
      now rewrite andb_false_r.
    + intros Hauto. split.
      * rewrite auto_temps_app, auto_temps_flat_map.
        rewrite (flat_map_nothing _ _ Hrest), app_nil_r.
        rewrite auto_temps_body by assumption.
        replace (1 - window + window)%Z with 1%Z by lia.
        replace (1 <=? n_images)%Z with true by lia.
        now replace (auto_temp a =? 1)%Z with true by lia.
      * assert (Hf : String.eqb (auto_meth a) "frame" = false)
          by (now apply String.eqb_neq).
        unfold body_events at 1, estimate_events.
        replace (1 - window + window)%Z with 1%Z by lia.
        replace (1 <=? n_images)%Z with true by lia.
        replace (auto_temp a =? 1)%Z with true by lia.
        rewrite Hf. cbn [andb Z.eqb Z.gtb Z.compare Pos.compare Pos.compare_cont].
        eexists ((if (1 - window >=? sim_start)%Z then [] else []) ++
                 (if negb (Qle_bool p 0) then [EvPadImage (1 - 1) p] else []) ++
                 [EvSynthImage (1 - 1)] ++
                 (if dist a then [EvDistMap (1 - 1) dv] else [])), _.
        split.
        -- rewrite <- !app_assoc. cbn [app]. reflexivity.
        -- unfold optimize_calls. rewrite !flat_map_app.
           destruct (1 - window >=? sim_start)%Z, (negb (Qle_bool p 0)), (dist a);
             reflexivity.
Qed.

Lemma auto_temp_calibrates_once_witness :
  exists evs,
    window_loop sample_args (sample_env 10 []) (sample_config 10 []) 3 5 0
                (Some 0%Q) empty_world
      = (World (objs empty_world) (trace empty_world ++ evs), Ok tt) /\
    (auto_temp sample_args <> 1%Z -> auto_temps evs = []) /\
    (auto_temp sample_args = 1%Z ->
       auto_temps evs = [(0, 1)%Z] /\
       exists pre post,
         evs = pre ++ EvAutoTemp 0 1 :: post /\ optimize_calls pre = []).
Proof.
  apply (auto_temp_calibrates_once sample_args (sample_env 10 [])
           (sample_config 10 []) 0 3 5 0 0 empty_world).
  - apply sample_config_ready.
  - discriminate.
  - lia.
  - lia.
Defined.

Lemma padded_frames_loop a e dv window n_images sim_start p xs :
  padded_frames (flat_map (body_events a e dv window n_images sim_start p) xs)
  = if negb (Qle_bool p 0)
    then map (fun ws => ((ws + window - 1)%Z, p))
             (List.filter (fun ws => (ws + window <=? n_images)%Z) xs)
    else [].
Proof.
  unfold padded_frames. rewrite flat_map_nest. fold padded_frames.
  rewrite (flat_map_ext _ _ (padded_frames_body a e dv window n_images sim_start p)).
  destruct (negb (Qle_bool p 0)).
  - rewrite <- (flat_map_select (fun ws => (ws + window <=? n_images)%Z)).
    apply flat_map_ext. intros ws. now rewrite andb_true_r.
  - apply flat_map_nothing. intros ws _. now rewrite andb_false_r.
Qed.

(** X15: every real image is padded exactly once, by [pad] on each side, when
    [pad] is positive, in frame order; with a zero or negative [pad] no
    image is ever padded. *)
Theorem images_padded_once a e cfg dv window n_images sim_start p w :
  config_ready a cfg dv ->
  (1 <= window)%Z -> (0 <= n_images)%Z ->
  exists evs,
    window_loop a e cfg window n_images sim_start (Some p) w
      = (World (objs w) (trace w ++ evs), Ok tt) /\
    ((0 < p)%Q -> padded_frames evs = map (fun f => (f, p)) (py_range 0 n_images)) /\
    ((p <= 0)%Q -> padded_frames evs = []).
Proof.
  intros Hready Hw Hn. eexists. split.
  - apply (window_loop_emits a e cfg dv window n_images sim_start p Hready w).
  - rewrite padded_frames_loop. split.
    + intros Hp. destruct (Qle_bool p 0) eqn:E.
      * apply Qle_bool_iff in E. exfalso. apply (Qlt_irrefl 0).
        now apply (Qlt_le_trans _ p).
      * cbn [negb]. rewrite <- (estimated_frames window n_images) by assumption.
        now rewrite map_map.
    + intros Hp. apply Qle_bool_iff in Hp. now rewrite Hp.
Qed.

Lemma images_padded_once_witness :
  exists evs,
    window_loop sample_args (sample_env 10 []) (sample_config 10 []) 3 5 0
                (Some 2%Q) empty_world
      = (World (objs empty_world) (trace empty_world ++ evs), Ok tt) /\
    ((0 < 2)%Q -> padded_frames evs = map (fun f => (f, 2%Q)) (py_range 0 5)) /\
    ((2 <= 0)%Q -> padded_frames evs = []).
Proof.
  apply (images_padded_once sample_args (sample_env 10 []) (sample_config 10 [])
           0 3 5 0 2 empty_world).
  - apply sample_config_ready.
  - lia.
  - lia.
Defined.

Lemma filter_range_between lo hi a b :
  (lo <= a)%Z -> (b <= hi)%Z ->
  List.filter (fun x => (x >=? a)%Z && (x <? b)%Z) (py_range lo hi) = py_range a b.
Proof.
  intros Ha Hb. destruct (Z_le_gt_dec a b) as [Hab|Hab].
  - rewrite (py_range_split lo a hi), (py_range_split a b hi) by lia.
    rewrite !List.filter_app.
    rewrite (filter_drop_all _ (py_range lo a)), (filter_keep_all _ (py_range a b)),
      (filter_drop_all _ (py_range b hi));
      [now rewrite app_nil_r| | |];
      intros x Hx; apply In_py_range in Hx; lia.
  - rewrite (py_range_empty a b) by lia. apply filter_drop_all.
    intros x _. lia.
Qed.

(** X16: how often the lineage is copied forward: once for every window start
    from the larger of sim_start and 2 - window up to N - window. *)
Theorem copy_forward_count a e cfg dv window n_images sim_start p w :
  config_ready a cfg dv ->
  (1 <= window)%Z -> (0 <= n_images)%Z ->
  exists evs,
    window_loop a e cfg window n_images sim_start (Some p) w
      = (World (objs w) (trace w ++ evs), Ok tt) /\
    length (copy_forwards evs)
    = Z.to_nat (n_images - window + 1 - Z.max sim_start (2 - window)).
Proof.
  intros Hready Hw Hn. eexists. split.
  - apply (window_loop_emits a e cfg dv window n_images sim_start p Hready w).
  - unfold copy_forwards. rewrite flat_map_nest. fold copy_forwards.
    rewrite (flat_map_ext _ _ (copy_forwards_body a e dv window n_images sim_start p)).
    rewrite (flat_map_select
               (fun ws => (ws + window <=? n_images)%Z && (ws >=? sim_start)%Z
                          && (ws + window >? 1)%Z) (fun _ => tt)).
    rewrite length_map.
    rewrite (List.filter_ext _
               (fun x => (x >=? Z.max sim_start (2 - window))%Z
                         && (x <? n_images - window + 1)%Z))
      by (intros x; lia).
    rewrite filter_range_between by lia.
    rewrite py_range_length. f_equal.
Qed.

Lemma copy_forward_count_witness :
  exists evs,
    window_loop sample_args (sample_env 10 []) (sample_config 10 []) 3 5 0
                (Some 0%Q) empty_world
      = (World (objs empty_world) (trace empty_world ++ evs), Ok tt) /\
    length (copy_forwards evs) = Z.to_nat (5 - 3 + 1 - Z.max 0 (2 - 3)).
Proof.
  apply (copy_forward_count sample_args (sample_env 10 []) (sample_config 10 [])
           0 3 5 0 0 empty_world).
  - apply sample_config_ready.
  - lia.
  - lia.
Defined.

(** ** A configuration without the residual range *)

Lemma bind_assoc {A B C} (c : M A) (k1 : A -> M B) (k2 : B -> M C) w :
  bind (bind c k1) k2 w = bind c (fun x => bind (k1 x) k2) w.
Proof. unfold bind. destruct (c w) as [w1 [x| |]]; reflexivity. Qed.

Lemma bind_ext {A B} (c : M A) (k1 k2 : A -> M B) w :
  (forall x w1, k1 x w1 = k2 x w1) -> bind c k1 w = bind c k2 w.
Proof.
  intros H. unfold bind. destruct (c w) as [w1 [x| |]]; [apply H| |]; reflexivity.
Qed.

Lemma for_each_app {A} (xs ys : list A) (body : A -> M unit) w :
  for_each (xs ++ ys) body w
  = bind (for_each xs body) (fun _ => for_each ys body) w.
Proof.
  revert w. induction xs as [|x xs IH]; intros w; [reflexivity|].
  cbn [app for_each]. rewrite bind_assoc. apply bind_ext. intros _ w1. apply IH.
Qed.

Lemma window_body_run_to_save a e cfg dv window n_images sim_start p ws w :
  (dist a = true -> distmap_divisor cfg = Ok dv) ->
  objective_weights (dist a) cfg = Ok tt ->
  window_body a e cfg window n_images sim_start (Some p) ws w
  = when (ws >=? 0)%Z
      (emit (EvSaveLineage ws) ;;; save_output ws cfg)
      (World (objs w)
         (trace w ++ before_save_events a e dv window n_images sim_start p ws)).
Proof.
  intros Hdv Hobjw. unfold window_body, before_save_events.
  assert (Hest : emits
    (when (ws + window <=? n_images)%Z
       (when (ws >=? sim_start)%Z
          (when (ws + window >? 1)%Z (emit EvCopyForward)) ;;;
        p0 <~ read_pad (Some p) ;;
        when (negb (Qle_bool p0 0)) (emit (EvPadImage (ws + window - 1) p0)) ;;;
        emit (EvSynthImage (ws + window - 1)) ;;;
        when (dist a)
          (dv0 <~ lift (distmap_divisor cfg) ;;
           emit (EvDistMap (ws + window - 1) dv0)) ;;;
        when ((auto_temp a =? 1)%Z && (ws + window =? 1)%Z) (emit (EvAutoTemp 0 1)) ;;;
        when (String.eqb (auto_meth a) "frame"
              && auto_temp_schedule_frame e (ws + window) 3)
          (emit (EvAutoTemp ws (ws + window)))))
    (if (ws + window <=? n_images)%Z
     then estimate_events a e dv window sim_start p ws else [])).
  { apply emits_when. unfold estimate_events.
    apply emits_seq; [apply emits_when, emits_when, emits_emit|].
    unfold read_pad. apply emits_bind_ret.
    apply emits_seq; [apply emits_when, emits_emit|].
    apply emits_seq; [apply emits_emit|].
    apply emits_seq; [|apply emits_seq; apply emits_when, emits_emit].
    destruct (dist a) eqn:Hd; [|apply emits_ret]. unfold when.
    eapply emits_lift; [now apply Hdv|]. apply emits_emit. }
  assert (Hdisp : emits
    (when (ws >=? sim_start)%Z
       (lift (objective_weights (dist a) cfg) ;;;
        emit (EvObjective (dist a)) ;;;
        emit (EvGlobalOptimize ws (ws + window))))
    (if (ws >=? sim_start)%Z
     then [EvObjective (dist a); EvGlobalOptimize ws (ws + window)] else [])).
  { apply emits_when.
    change [EvObjective (dist a); EvGlobalOptimize ws (ws + window)]
      with ([] ++ [EvObjective (dist a)] ++ [EvGlobalOptimize ws (ws + window)]).
    apply emits_seq; [|apply emits_seq; apply emits_emit].
    intros w0. unfold lift. rewrite Hobjw. destruct w0. simpl.
    now rewrite app_nil_r. }
  rewrite (bind_ok _ _ _ _ _ (Hest w)).
  rewrite (bind_ok _ _ _ _ _ (Hdisp _)). cbn [objs trace].
  now rewrite <- app_assoc.
Qed.

Lemma before_save_saves_nothing a e dv window n_images sim_start p ws :
  saved_frames (before_save_events a e dv window n_images sim_start p ws) = [] /\
  output_frames (before_save_events a e dv window n_images sim_start p ws) = [].
Proof.
  unfold saved_frames, output_frames, before_save_events, estimate_events.
  rewrite !flat_map_app. split; split_ifs; reflexivity.
Qed.

Lemma saved_frames_app l1 l2 :
  saved_frames (l1 ++ l2) = saved_frames l1 ++ saved_frames l2.
Proof. apply flat_map_app. Qed.

Lemma output_frames_app l1 l2 :
  output_frames (l1 ++ l2) = output_frames l1 ++ output_frames l2.
Proof. apply flat_map_app. Qed.

(** X17: [save_output] reads the residual range whether or not a residual
    directory was asked for: on a configuration without residual.vmin the
    run writes the lineage records of frame 0 and then stops with a
    KeyError, before any image of any frame is written. *)
Theorem window_loop_missing_residual a e cfg dv window n_images sim_start p w :
  (dist a = true -> distmap_divisor cfg = Ok dv) ->
  objective_weights (dist a) cfg = Ok tt ->
  dict_has "residual.vmin" cfg = false ->
  (1 <= window)%Z -> (1 <= n_images)%Z ->
  exists evs,
    window_loop a e cfg window n_images sim_start (Some p) w
      = (World (objs w) (trace w ++ evs), Raise (KeyError "residual.vmin")) /\
    saved_frames evs = [0%Z] /\ output_frames evs = [].
Proof.
  intros Hdv Hobjw Hmin Hw Hn.
  set (early := flat_map (body_events a e dv window n_images sim_start p)
                  (py_range (1 - window) 0)).
  exists (early ++ before_save_events a e dv window n_images sim_start p 0
                ++ [EvSaveLineage 0]).
  split.
  - unfold window_loop. rewrite (py_range_split (1 - window) 0 n_images) by lia.
    rewrite for_each_app.
    assert (Hearly : emits (for_each (py_range (1 - window) 0)
                              (window_body a e cfg window n_images sim_start (Some p)))
                           early).
    { apply emits_for_each. intros ws Hws. apply In_py_range in Hws. intros w0.
      rewrite (window_body_run_to_save a e cfg dv window n_images sim_start p ws w0
                 Hdv Hobjw).
      unfold body_events, before_save_events.
      replace (ws >=? 0)%Z with false by lia.
      unfold when, ret. cbn [objs trace]. now rewrite !app_nil_r. }
    rewrite (bind_ok _ _ _ _ _ (Hearly w)).
    rewrite (py_range_cons 0 n_images) by lia. cbn [for_each].
    apply bind_raise.
    rewrite (window_body_run_to_save a e cfg dv window n_images sim_start p 0 _
               Hdv Hobjw).
    cbn [Z.geb Z.compare when]. unfold bind, emit, save_output, bind, lift, subscript.
    cbn [objs trace]. unfold dict_has in Hmin.
    destruct (dict_get "residual.vmin" cfg); [discriminate|].
    now rewrite <- !app_assoc.
  - destruct (before_save_saves_nothing a e dv window n_images sim_start p 0)
      as [Hs Ho].
    rewrite !saved_frames_app, !output_frames_app, Hs, Ho.
    unfold early. rewrite saved_frames_loop, output_frames_loop.
    rewrite filter_drop_all
      by (intros x Hx; apply In_py_range in Hx; lia).
    split; reflexivity.
Qed.

Lemma window_loop_missing_residual_witness :
  exists evs,
    window_loop sample_args (sample_env 10 []) no_residual_config 3 5 0
                (Some 0%Q) empty_world
      = (World (objs empty_world) (trace empty_world ++ evs),
         Raise (KeyError "residual.vmin")) /\
    saved_frames evs = [0%Z] /\ output_frames evs = [].
Proof.
  apply (window_loop_missing_residual sample_args (sample_env 10 [])
           no_residual_config 0 3 5 0 0 empty_world).
  - discriminate.
  - reflexivity.
  - reflexivity.
  - lia.
  - lia.
Defined.

(** ** More on the derived configuration *)

Lemma scale_items_skip_all sa items w :
  (forall k v, In (k, v) items -> key_in k keys_to_modify = false) ->
  scale_items sa items w = (w, Ok tt).
Proof.
  revert w. induction items as [|[key value] items IH]; intros w H; [reflexivity|].
  simpl scale_items.
  rewrite (bind_ok _ _ w w tt)
    by (apply scale_item_skip, (H key value); now left).
  apply IH. intros k v Hin. apply (H k v). now right.
Qed.

(** X18: iteration_per_cell is read only when one of the ten keys is met: a
    perturbation section that has none of them is copied as it is, whatever
    iteration_per_cell holds, zero or nothing at all. *)
Theorem derive_sa_config_without_keys (w : world) (config : loc) (d p : dict) :
  objs w !! config = Some d ->
  dict_get "perturbation" d = Some (JObj p) ->
  (forall k v, In (k, v) p -> key_in k keys_to_modify = false) ->
  derive_sa_config config w
  = (World (<[fresh (dom (objs w)) := d]> (objs w)) (trace w),
     Ok (fresh (dom (objs w)))).
Proof.
  intros Hobj Hpert Hnone.
  set (sa := fresh (dom (objs w))).
  set (w0 := World (<[sa := d]> (objs w)) (trace w)).
  assert (Hcopy : deepcopy config w = (w0, Ok sa)).
  { unfold deepcopy. now rewrite Hobj. }
  unfold derive_sa_config. rewrite (bind_ok _ _ _ _ _ Hcopy).
  assert (Hscale : scale_perturbation sa w0 = (w0, Ok tt)).
  { unfold scale_perturbation, bind, deref, lift, subscript. cbv beta.
    unfold w0 at 1. cbn [objs]. rewrite lookup_insert_eq. cbv beta match.
    rewrite Hpert. now apply scale_items_skip_all. }
  now rewrite (bind_ok _ _ _ _ _ Hscale).
Qed.

Lemma derive_sa_config_without_keys_witness :
  derive_sa_config 0%nat (World {[ 0%nat := plain_config ]} [])
  = (World (<[fresh (dom (objs (World {[ 0%nat := plain_config ]} []))) :=
               plain_config]> (objs (World {[ 0%nat := plain_config ]} [])))
           (trace (World {[ 0%nat := plain_config ]} [])),
     Ok (fresh (dom (objs (World {[ 0%nat := plain_config ]} []))))).
Proof.
  apply (derive_sa_config_without_keys (World {[ 0%nat := plain_config ]} [])
           0%nat plain_config plain_perturbation).
  - reflexivity.
  - reflexivity.
  - intros k v Hin. simpl in Hin.
    repeat (destruct Hin as [[= <- <-]|Hin]; [reflexivity|]). destruct Hin.
Defined.

Lemma scale_items_no_budget sa :
  forall items w d,
    objs w !! sa = Some d ->
    dict_get "iteration_per_cell" d = None ->
    (exists k v, In (k, v) items /\ key_in k keys_to_modify = true) ->
    scale_items sa items w = (w, Raise (KeyError "iteration_per_cell")).
Proof.
  induction items as [|[key value] items IH];
    intros w d Hobj Hcell (k & v & Hin & Hk); [destruct Hin|].
  simpl scale_items. destruct (key_in key keys_to_modify) eqn:Hkey.
  - apply bind_raise. unfold scale_item, when. rewrite Hkey.
    unfold bind, deref, lift, subscript. cbv beta.
    rewrite Hobj. cbv beta match. now rewrite Hcell.
  - rewrite (bind_ok _ _ w w tt) by (now apply scale_item_skip).
    apply (IH w d Hobj Hcell).
    destruct Hin as [[= -> ->]|Hin]; [congruence|]. now exists k, v.
Qed.

(** X19: with one of the ten keys configured and no iteration_per_cell, the
    scaling stops with a KeyError at the first such key, whatever its
    value: the copy exists, unscaled, and no object of the store before
    the call has changed. *)
Theorem derive_sa_config_without_budget (w : world) (config : loc) (d p : dict) :
  objs w !! config = Some d ->
  dict_get "perturbation" d = Some (JObj p) ->
  dict_get "iteration_per_cell" d = None ->
  (exists k v, In (k, v) p /\ key_in k keys_to_modify = true) ->
  derive_sa_config config w
  = (World (<[fresh (dom (objs w)) := d]> (objs w)) (trace w),
     Raise (KeyError "iteration_per_cell")).
Proof.
  intros Hobj Hpert Hcell Hhit.
  set (sa := fresh (dom (objs w))).
  set (w0 := World (<[sa := d]> (objs w)) (trace w)).
  assert (Hcopy : deepcopy config w = (w0, Ok sa)).
  { unfold deepcopy. now rewrite Hobj. }
  assert (Hsa0 : objs w0 !! sa = Some d) by apply lookup_insert_eq.
  unfold derive_sa_config. rewrite (bind_ok _ _ _ _ _ Hcopy).
  apply bind_raise.
  unfold scale_perturbation, bind, deref, lift, subscript. cbv beta.
  rewrite Hsa0. cbv beta match. rewrite Hpert.
  now apply (scale_items_no_budget sa p w0 d).
Qed.

Lemma derive_sa_config_without_budget_witness :
  derive_sa_config 0%nat (World {[ 0%nat := no_budget_config ]} [])
  = (World (<[fresh (dom (objs (World {[ 0%nat := no_budget_config ]} []))) :=
               no_budget_config]> (objs (World {[ 0%nat := no_budget_config ]} [])))
           (trace (World {[ 0%nat := no_budget_config ]} [])),
     Raise (KeyError "iteration_per_cell")).
Proof.
  apply (derive_sa_config_without_budget (World {[ 0%nat := no_budget_config ]} [])
           0%nat no_budget_config sample_perturbation).
  - reflexivity.
  - reflexivity.
  - reflexivity.
  - exists "modification.x.mu", (JNum 0). split; [|reflexivity].
    right. now left.
Defined.

(** X20: with iteration_per_cell = 0 and numeric values under the ten keys, the
    scaling divides by zero at the first of them: no derived configuration
    is produced and nothing is added to the trace. *)
Theorem derive_sa_config_divides_by_zero (w : world) (config : loc) (d p : dict)
    (ipcv : json) (ipc : Q) :
  objs w !! config = Some d ->
  dict_get "perturbation" d = Some (JObj p) ->
  dict_get "iteration_per_cell" d = Some ipcv ->
  num_of ipcv = Some ipc ->
  Qeq_bool ipc 0 = true ->
  (forall k v, In (k, v) p -> key_in k keys_to_modify = true ->
               exists q, num_of v = Some q) ->
  (exists k v, In (k, v) p /\ key_in k keys_to_modify = true) ->
  derive_sa_config config w
  = (World (<[fresh (dom (objs w)) := d]> (objs w)) (trace w),
     Raise ZeroDivisionError).
Proof.
  intros Hobj Hpert Hcell Hipc Hz Hnum Hhit.
  set (sa := fresh (dom (objs w))).
  set (w0 := World (<[sa := d]> (objs w)) (trace w)).
  assert (Hcopy : deepcopy config w = (w0, Ok sa)).
  { unfold deepcopy. now rewrite Hobj. }
  assert (Hsa0 : objs w0 !! sa = Some d) by apply lookup_insert_eq.
  unfold derive_sa_config. rewrite (bind_ok _ _ _ _ _ Hcopy).
  apply bind_raise.
  unfold scale_perturbation, bind, deref, lift, subscript. cbv beta.
  rewrite Hsa0. cbv beta match. rewrite Hpert.
  now apply (scale_items_zero sa ipcv ipc Hipc Hz p w0 d).
Qed.

Lemma derive_sa_config_divides_by_zero_witness :
  derive_sa_config 0%nat (sample_world 0 [])
  = (World (<[fresh (dom (objs (sample_world 0 []))) := sample_config 0 []]>
              (objs (sample_world 0 []))) (trace (sample_world 0 [])),
     Raise ZeroDivisionError).
Proof.
  apply (derive_sa_config_divides_by_zero (sample_world 0 []) 0%nat
           (sample_config 0 []) sample_perturbation (JNum 0) 0).
  - reflexivity.
  - reflexivity.
  - reflexivity.
  - reflexivity.
  - reflexivity.
  - apply sample_numeric.
  - exists "modification.x.mu", (JNum 0). split; [|reflexivity].
    right. now left.
Defined.

(** ** The defaults of --workers and --jobs *)

(** X21: [parse_args] fails exactly when no job count is given for a non-local
    cluster; otherwise explicit values are kept, workers default to the
    processor count and jobs to the workers, so that neither is left at -1
    (the processor count being positive). *)
Theorem resolve_jobs_defaults (workers jobs : Z) (cluster : string) (cpu_count : Z) :
  (1 <= cpu_count)%Z ->
  (jobs = (-1)%Z /\ cluster <> "" ->
     exists msg, resolve_jobs workers jobs cluster cpu_count = Raise (ValueError msg)) /\
  (jobs <> (-1)%Z \/ cluster = "" ->
     exists w j,
       resolve_jobs workers jobs cluster cpu_count = Ok (w, j) /\
       w <> (-1)%Z /\ j <> (-1)%Z /\
       (workers <> (-1)%Z -> w = workers) /\
       (workers = (-1)%Z -> w = cpu_count) /\
       (jobs <> (-1)%Z -> j = jobs) /\
       (jobs = (-1)%Z -> j = w)).
Proof.
  intros Hcpu. unfold resolve_jobs. split.
  - intros [-> Hc]. cbn [Z.eqb].
    replace (String.eqb cluster "") with false
      by (symmetry; now apply String.eqb_neq).
    cbn [negb]. eauto.
  - intros Hok.
    destruct (Z.eqb_spec jobs (-1)) as [Hj|Hj];
      destruct (Z.eqb_spec workers (-1)) as [Hwk|Hwk].
    + destruct Hok as [Hok | ->]; [contradiction|]. cbn [String.eqb negb].
      exists cpu_count, cpu_count. repeat split; auto; try lia; congruence.
    + destruct Hok as [Hok | ->]; [contradiction|]. cbn [String.eqb negb].
      exists workers, workers. repeat split; auto; try lia; congruence.
    + exists cpu_count, jobs. repeat split; auto; try lia; congruence.
    + exists workers, jobs. repeat split; auto; try lia; congruence.
Qed.

Lemma resolve_jobs_defaults_witness :
  ((-1)%Z = (-1)%Z /\ "" <> "" ->
     exists msg, resolve_jobs (-1) (-1) "" 8 = Raise (ValueError msg)) /\
  ((-1)%Z <> (-1)%Z \/ "" = "" ->
     exists w j,
       resolve_jobs (-1) (-1) "" 8 = Ok (w, j) /\
       w <> (-1)%Z /\ j <> (-1)%Z /\
       ((-1)%Z <> (-1)%Z -> w = (-1)%Z) /\
       ((-1)%Z = (-1)%Z -> w = 8%Z) /\
       ((-1)%Z <> (-1)%Z -> j = (-1)%Z) /\
       ((-1)%Z = (-1)%Z -> j = w)).
Proof.
  apply (resolve_jobs_defaults (-1) (-1) "" 8). lia.
Defined.

(** ** The two loaders on single-slice frames *)

Lemma frame_complete_single is_file is_slice i :
  (forall j, is_slice j 0%Z = is_file j) ->
  frame_complete is_slice 1 i = is_file i.
Proof.
  intros H. unfold frame_complete. change (py_range 0 1) with [0%Z].
  cbn [forallb]. rewrite H. apply andb_true_r.
Qed.

(** X6: with one slice per frame and the first frame on disk, the loader of
    CellUniverse.py finds what [get_inputfiles] finds whenever the frame
    interval is open (last frame -1) or is not empty (first <= last): the
    same frames, one single-file stack each, or an error in the same
    cases.  On an empty interval with an explicit last frame
    (0 <= last < first) the two differ: [get_inputfiles] raises the
    ValueError of an invalid interval, [get_image_file_paths] returns the
    empty list. *)
Theorem loaders_agree (fuel : nat) (is_file : Z -> bool) (is_slice : Z -> Z -> bool)
    (first last : Z) :
  (forall j, is_slice j 0%Z = is_file j) ->
  (0 <= first)%Z ->
  is_file first = true ->
  ((last = (-1)%Z /\
    exists m, (first < m)%Z /\ is_file m = false /\ (Z.to_nat (m - first) < fuel)%nat)
   \/ ((first <= last)%Z /\ (Z.to_nat (last + 1 - first) < fuel)%nat) ->
   get_image_file_paths fuel is_slice 1 first last
   = match get_inputfiles fuel is_file first last with
     | Ok l => Ok (map (fun i => [(i, 0%Z)]) l)
     | Raise _ => Raise not_found
     | OutOfFuel => OutOfFuel
     end) /\
  ((0 <= last < first)%Z -> (0 < fuel)%nat ->
   get_inputfiles fuel is_file first last
   = Raise (ValueError "Invalid interval: frame_first must be less than frame_last") /\
   get_image_file_paths fuel is_slice 1 first last = Ok []).
Proof.
  intros Hslice Hfirst Hfile. split.
  2:{ intros Hlast Hfuel. split.
      - unfold get_inputfiles.
        now replace ((first >? last)%Z && (last >=? 0)%Z) with true by lia.
      - unfold get_image_file_paths. destruct fuel as [|fuel']; [lia|].
        cbn [image_paths_loop].
        now replace ((last =? -1)%Z || (first <=? last)%Z) with false by lia. }
  intros Hcases.
  assert (Hcomplete : forall j, frame_complete is_slice 1 j = is_file j)
    by (intros j; now apply frame_complete_single).
  unfold get_image_file_paths, get_inputfiles.
  destruct fuel as [|fuel']; [destruct Hcases as [(_ & m & _ & _ & H)|[_ H]]; lia|].
  replace (first <? 0)%Z with false by lia.
  destruct Hcases as [(-> & m & Hm & Hmiss & Hfuel)|[Hfl Hfuel]].
  - cbn [Z.gtb Z.geb Z.compare andb].
    replace ((first >? -1)%Z && false) with false by now rewrite andb_false_r.
    destruct (first_failure is_file first (S (Z.to_nat (m - first))))
      as [Hall|(m0 & Hm0 & Hmiss0 & Hbefore)].
    { rewrite Hall in Hmiss by lia. discriminate. }
    assert (first < m0)%Z.
    { destruct (Z.eq_dec m0 first) as [->|]; [congruence|lia]. }
    set (k := Z.to_nat (m0 - first)).
    assert (Hsplit : S fuel' = (k + S (fuel' - k))%nat) by lia.
    rewrite Hsplit.
    rewrite inputfiles_loop_advance
      by (intros j Hj; split; [apply Hbefore|]; lia).
    rewrite image_paths_loop_complete
      by (intros j Hj; split; [rewrite Hcomplete; apply Hbefore|]; lia).
    replace (first + Z.of_nat k)%Z with m0 by lia.
    cbn [inputfiles_loop image_paths_loop app]. rewrite Hmiss0.
    replace ((-1 <? 0)%Z && negb (first =? m0)%Z) with true by lia.
    cbn [Z.eqb Pos.eqb orb]. rewrite slice_stack_complete, Hcomplete, Hmiss0.
    cbn [negb andb].
    reflexivity.
  - replace ((first >? last)%Z && (last >=? 0)%Z) with false by lia.
    destruct (first_failure is_file first (Z.to_nat (last + 1 - first)))
      as [Hall|(m0 & Hm0 & Hmiss0 & Hbefore)].
    + set (k := Z.to_nat (last - first)).
      assert (Hsplit : S fuel' = (k + S (fuel' - k))%nat) by lia.
      rewrite Hsplit at 2.
      rewrite inputfiles_loop_advance
        by (intros j Hj; split; [apply Hall|]; lia).
      replace (first + Z.of_nat k)%Z with last by lia.
      cbn [inputfiles_loop app]. rewrite Hall by lia.
      replace (last =? last)%Z with true by lia.
      set (k1 := Z.to_nat (last + 1 - first)).
      assert (Hsplit1 : S fuel' = (k1 + S (fuel' - k1))%nat) by lia.
      rewrite Hsplit1.
      rewrite image_paths_loop_complete
        by (intros j Hj; split; [rewrite Hcomplete; apply Hall|]; lia).
      replace (first + Z.of_nat k1)%Z with (last + 1)%Z by lia.
      cbn [image_paths_loop app].
      replace ((last =? -1)%Z || (last + 1 <=? last)%Z) with false by lia.
      rewrite <- py_range_snoc by lia.
      reflexivity.
    + set (k := Z.to_nat (m0 - first)).
      assert (Hsplit : S fuel' = (k + S (fuel' - k))%nat) by lia.
      rewrite Hsplit.
      rewrite inputfiles_loop_advance
        by (intros j Hj; split; [apply Hbefore|]; lia).
      rewrite image_paths_loop_complete
        by (intros j Hj; split; [rewrite Hcomplete; apply Hbefore|]; lia).
      replace (first + Z.of_nat k)%Z with m0 by lia.
      cbn [inputfiles_loop image_paths_loop app]. rewrite Hmiss0.
      replace ((last <? 0)%Z && negb (first =? m0)%Z) with false by lia.
      replace ((last =? -1)%Z || (m0 <=? last)%Z) with true by lia.
      rewrite slice_stack_complete, Hcomplete, Hmiss0, length_map, py_range_length.
      now replace (negb (last =? -1)%Z
                   && negb (Z.of_nat (Z.to_nat (m0 - first)) =? last - first + 1)%Z)
        with true by lia.
Qed.

Lemma loaders_agree_witness :
  get_image_file_paths 10 (fun i _ => (i <? 5)%Z) 1 2 (-1)
  = match get_inputfiles 10 (fun i => (i <? 5)%Z) 2 (-1) with
    | Ok l => Ok (map (fun i => [(i, 0%Z)]) l)
    | Raise _ => Raise not_found
    | OutOfFuel => OutOfFuel
    end
  /\ (get_inputfiles 10 (fun i => (i <? 5)%Z) 3 1
      = Raise (ValueError "Invalid interval: frame_first must be less than frame_last")
      /\ get_image_file_paths 10 (fun i _ => (i <? 5)%Z) 1 3 1 = Ok []).
Proof.
  split.
  - apply (proj1 (loaders_agree 10 (fun i => (i <? 5)%Z) (fun i _ => (i <? 5)%Z)
                    2 (-1) (fun _ => eq_refl) ltac:(lia) eq_refl)).
    left. split; [reflexivity|]. exists 5%Z. split; [lia|]. split; [reflexivity|].
    simpl. lia.
  - apply (proj2 (loaders_agree 10 (fun i => (i <? 5)%Z) (fun i _ => (i <? 5)%Z)
                    3 1 (fun _ => eq_refl) ltac:(lia) eq_refl)); lia.
Defined.
